(** * Friendship logbook: a shallow embedding of [app.py]

    The application is a Flask program over three SQLite tables ([memory],
    [appreciation], [user]), an upload directory and a login session.  Each
    view function of [app.py] is embedded as a function from a request and
    the state of the world to the new state and the response.  What the
    program gets from its libraries (SQLite's reading of text as a number,
    werkzeug's [secure_filename] and password hashing) and from the disk
    (whether a file can be written) is taken as an interface, so every
    theorem holds for whatever these functions compute. *)

From Stdlib Require Import ZArith QArith Ascii.
From stdpp Require Import base option list strings gmap fin_maps sorting.

Local Open Scope string_scope.
Local Open Scope Z_scope.

(** ** Python strings *)

Module Py.

(** [c in s] for a one-character [c]. *)
Fixpoint contains (c : ascii) (s : string) : bool :=
  match s with
  | EmptyString => false
  | String d rest => if Ascii.eqb d c then true else contains c rest
  end.

(** [s.rsplit(sep, 1)]: the string cut at its last [sep], or [s] alone when
    it has none. *)
Fixpoint rsplit1 (sep : ascii) (s : string) : list string :=
  match s with
  | EmptyString => [EmptyString]
  | String c rest =>
      match rsplit1 sep rest with
      | [before; after] => [String c before; after]
      | _ => if Ascii.eqb c sep then [EmptyString; rest] else [String c rest]
      end
  end.

Definition is_upper (c : ascii) : bool :=
  (65 <=? N_of_ascii c)%N && (N_of_ascii c <=? 90)%N.

Definition lower_char (c : ascii) : ascii :=
  if is_upper c then ascii_of_N (N_of_ascii c + 32) else c.

(** [s.lower()].  Strings are byte strings here and only the letters A-Z
    are mapped.  Python also lowers letters outside ASCII, but none of them
    to a letter of an allowed extension, so membership in
    [ALLOWED_EXTENSIONS] is the same. *)
Fixpoint lower (s : string) : string :=
  match s with
  | EmptyString => EmptyString
  | String c rest => String (lower_char c) (lower rest)
  end.

(** [s.startswith(c)] and [s.endswith(c)] for a one-character [c]. *)
Definition startswith (c : ascii) (s : string) : bool :=
  match s with
  | String d _ => Ascii.eqb d c
  | EmptyString => false
  end.

Fixpoint endswith (c : ascii) (s : string) : bool :=
  match s with
  | EmptyString => false
  | String d EmptyString => Ascii.eqb d c
  | String _ rest => endswith c rest
  end.

(** [os.path.join(a, b)] on POSIX, for two components. *)
Definition path_join (a b : string) : string :=
  if startswith "/" b then b
  else if String.eqb a "" || endswith "/" a then a +:+ b
  else a +:+ "/" +:+ b.

End Py.

(** ** Configuration *)

Definition UPLOAD_FOLDER : string := "static/uploads".

Definition ALLOWED_EXTENSIONS : gset string :=
  {[ "png"; "jpg"; "jpeg"; "gif" ]}.

(** [allowed_file]: the name has a dot, and what follows its last dot,
    lowered, is an allowed extension.  The index [[1]] cannot fail behind the
    first conjunct; its failure is [false] here. *)
Definition allowed_file (filename : string) : bool :=
  Py.contains "." filename &&
  match Py.rsplit1 "." filename !! 1%nat with
  | Some ext => bool_decide (Py.lower ext ∈ ALLOWED_EXTENSIONS)
  | None => false
  end.

(** The upload rule in the words of the specification: the name is a stem, a
    dot and an extension without dots (so the dot is the last one), and the
    extension is, up to case, one of png, jpg, jpeg, gif. *)
Definition has_allowed_extension (filename : string) : Prop :=
  ∃ stem ext : string,
    filename = stem +:+ "." +:+ ext ∧
    Py.contains "." ext = false ∧
    Py.lower ext ∈ [ "png"; "jpg"; "jpeg"; "gif" ].

(** ** What the libraries compute *)

(** SQLite.  A column declared [REAL] or [DATE] converts a text that is a
    well-formed number, and keeps any other text as it is.
    [numeric_of_text s] is the number SQLite reads in [s]: an integer, a
    real, or nothing when [s] is not a well-formed numeric literal.  [real]
    is the type of the floating-point values it stores. *)
Class Sqlite := {
  real : Type;
  numeric_of_text : string → option (Z + real);
  real_of_int : Z → real;
}.

(** werkzeug: [secure_filename] of [werkzeug.utils] and the two password
    functions of [werkzeug.security] (the salt that [generate_password_hash]
    draws is part of the function taken here). *)
Class Werkzeug := {
  secure_filename : string → string;
  generate_password_hash : string → string;
  check_password_hash : string → string → bool;
}.

(** ** The database *)

Section Database.
Context {sqlite_lib : Sqlite}.

(** What a [REAL] or [DATE] column holds after a Python [str] was bound
    to it. *)
Inductive sql_value :=
| SqlInteger (n : Z)
| SqlReal (x : real)
| SqlText (s : string).

(** Column affinity REAL: a numeric text is stored as a real (an integer is
    forced to floating point), any other text as text. *)
Definition real_affinity (s : string) : sql_value :=
  match numeric_of_text s with
  | Some (inl n) => SqlReal (real_of_int n)
  | Some (inr x) => SqlReal x
  | None => SqlText s
  end.

(** Column affinity NUMERIC, which is the affinity of a column declared
    [DATE]: a numeric text is stored as an integer or a real, any other
    text as text. *)
Definition numeric_affinity (s : string) : sql_value :=
  match numeric_of_text s with
  | Some (inl n) => SqlInteger n
  | Some (inr x) => SqlReal x
  | None => SqlText s
  end.

(** A row of [memory]; the key of the row in its table is the column
    [id].  [title], [story] and [photo_url] are TEXT columns bound to a
    [str] ([photo_url] also to [None]), [user_id] an INTEGER column bound
    to an [int]: they hold what was bound. *)
Record memory_row := MemoryRow {
  title : string;
  story : string;
  latitude : sql_value;
  longitude : sql_value;
  photo_url : option string;
  date : sql_value;
  user_id : Z;
}.

End Database.

(** A row of [appreciation]. *)
Record appreciation_row := AppreciationRow {
  text : string;
  author_id : Z;
  recipient_id : Z;
}.

(** A row of [user]. *)
Record user_row := UserRow {
  username : string;
  password_hash : string;
}.

(** A table with [id INTEGER PRIMARY KEY AUTOINCREMENT]: its rows by id, and
    the largest id it ever gave out (SQLite's [sqlite_sequence]). *)
Record table (R : Type) := Table {
  rows : gmap Z R;
  sqlite_sequence : Z;
}.
Arguments Table {R} _ _.
Arguments rows {R} _.
Arguments sqlite_sequence {R} _.

Section Statements.
Context {R : Type}.

Definition max_rowid (m : gmap Z R) : Z :=
  map_fold (λ k _ acc, Z.max k acc) 0 m.

(** The id AUTOINCREMENT gives the next row: one more than the largest id
    the table has or ever had.  (The failure SQLITE_FULL at the largest
    64-bit id is not modelled.) *)
Definition next_rowid (t : table R) : Z :=
  Z.max (sqlite_sequence t) (max_rowid (rows t)) + 1.

(** [INSERT INTO t (...) VALUES (...)] *)
Definition sql_insert (r : R) (t : table R) : table R :=
  let k := next_rowid t in Table (<[k := r]> (rows t)) k.

(** The row with the id [k], if the table has one. *)
Definition sql_select (k : Z) (t : table R) : option R := rows t !! k.

(** The integers SQLite stores, and that [sqlite3] binds to a [?]: those of
    64 bits. *)
Definition sqlite_integer (k : Z) : bool := (- 2 ^ 63 <=? k) && (k <? 2 ^ 63).

(** [conn.execute('SELECT ... WHERE id = ?', (k,)).fetchone()].  Binding a
    Python [int] that does not fit 64 bits raises [OverflowError].  The ids
    of rows are SQLite integers, so such a [k] is the id of no row: the
    error is the answer for an id that has no row and does not fit. *)
Inductive selected :=
| fetchone (row : option R)
| overflow_error.

Definition sql_select_bound (k : Z) (t : table R) : selected :=
  match sql_select k t with
  | Some row => fetchone (Some row)
  | None => if sqlite_integer k then fetchone None else overflow_error
  end.

(** [UPDATE t SET ... WHERE id = ?] *)
Definition sql_update (f : R → R) (k : Z) (t : table R) : table R :=
  Table (alter f k (rows t)) (sqlite_sequence t).

(** [DELETE FROM t WHERE id = ?] *)
Definition sql_delete (k : Z) (t : table R) : table R :=
  Table (delete k (rows t)) (sqlite_sequence t).

End Statements.
Arguments selected : clear implicits.

(** [SELECT * FROM user WHERE username = ?], [fetchone()]: the id and the
    row ([username] is UNIQUE, so there is at most one). *)
Definition select_user_by_username (users : gmap Z user_row) (name : string)
  : option (Z * user_row) :=
  snd <$> list_find (λ kr : Z * user_row, username kr.2 = name) (map_to_list users).

(** [ORDER BY id DESC] on the rows of a table with their ids. *)
Definition id_desc {R : Type} (x y : Z * R) : Prop := y.1 ≤ x.1.

#[global] Instance id_desc_dec {R : Type} : RelDecision (@id_desc R).
Proof. intros x y. unfold id_desc. apply _. Defined.

(** ** The upload directory *)

Record filesystem := FileSystem {
  fs_dirs : gset string;
  fs_files : gmap string string;
}.

(** [os.makedirs(UPLOAD_FOLDER, exist_ok=True)] *)
Definition makedirs_upload_folder (fs : filesystem) : filesystem :=
  FileSystem ({[ "static"; UPLOAD_FOLDER ]} ∪ fs_dirs fs) (fs_files fs).

(** ** Requests and responses *)

Inductive http_method := GET | POST.

#[global] Instance http_method_eq_dec : EqDecision http_method.
Proof. solve_decision. Defined.

(** An uploaded file (werkzeug's [FileStorage]): the name the client gave
    and the content. *)
Record file_storage := FileStorage {
  filename : string;
  stream : string;
}.

Record request := Request {
  method : http_method;
  form : gmap string string;
  files : gmap string file_storage;
}.

(** The targets of [url_for]. *)
Inductive endpoint := ep_login | ep_home | ep_appreciation.

(** The class [User]: what [current_user] is for a caller who is logged
    in. *)
Module User.
Record t := mk { id : Z; username : string }.
End User.

(** The disk.  [file.save(dst)] opens [dst] for writing and copies the
    stream into it.  Either step can raise [OSError]: the open (a name that
    is too long for the file system, a directory that refuses the write),
    which leaves the disk as it is, or the copy (a full disk), which leaves
    at [dst] what was written until then.  Which of the three happens on
    the disk [d] is the answer of the file system. *)
Inductive save_result :=
  | save_ok
  | save_open_error
  | save_write_error (written : string).

Class Os := {
  os_save : filesystem → string → file_storage → save_result;
}.

(** ** The application *)

Section App.
Context {sqlite_lib : Sqlite} {werkzeug_lib : Werkzeug} {os_lib : Os}.

(** The state of the world: the three tables of [logbook.db], the files on
    disk, and the user id held by the client's session cookie. *)
Record state := State {
  memory_table : table memory_row;
  appreciation_table : table appreciation_row;
  user_table : gmap Z user_row;
  fs : filesystem;
  session : option Z;
}.

Definition with_memory_table (t : table memory_row) (st : state) : state :=
  State t (appreciation_table st) (user_table st) (fs st) (session st).
Definition with_appreciation_table (t : table appreciation_row) (st : state) : state :=
  State (memory_table st) t (user_table st) (fs st) (session st).
Definition with_user_table (t : gmap Z user_row) (st : state) : state :=
  State (memory_table st) (appreciation_table st) t (fs st) (session st).
Definition with_fs (f : filesystem) (st : state) : state :=
  State (memory_table st) (appreciation_table st) (user_table st) f (session st).
Definition with_session (s : option Z) (st : state) : state :=
  State (memory_table st) (appreciation_table st) (user_table st) (fs st) s.

(** The templates with what they are rendered with. *)
Inductive page :=
| login_html (error : option string)
| add_memory_html
| edit_memory_html (memory_id : Z) (memory : memory_row)
| appreciation_html (appreciations : list (Z * string * string))
| edit_appreciation_html (note_id : Z) (note : appreciation_row).

(** What a request ends in: a redirect, a rendered template, or an error
    raised on the way (400 for a form key that is not there, 405 from the
    router, 500 for an exception nothing catches). *)
Inductive response :=
| Redirect (e : endpoint)
| RenderTemplate (p : page)
| BadRequest
| MethodNotAllowed
| InternalServerError.

Definition view : Type := request → state → state * response.

(** *** Start-up *)

(** The database file before the first start. *)
Definition no_database : state :=
  State (Table ∅ 0) (Table ∅ 0) ∅ (FileSystem ∅ ∅) None.

(** [init_db]: the three [CREATE TABLE IF NOT EXISTS] change nothing in a
    state that has the tables; the two users are inserted when [user] is
    empty.  [getenv] is [os.getenv]; hashing an absent password raises,
    which is [None] here. *)
Definition init_db (getenv : string → option string) (st : state) : option state :=
  if bool_decide (size (user_table st) = 0%nat) then
    your_pwd ← getenv "YOUR_PASSWORD";
    friend_pwd ← getenv "FRIEND_PASSWORD";
    let your_pwd_hash := generate_password_hash your_pwd in
    let friend_pwd_hash := generate_password_hash friend_pwd in
    Some (with_user_table
            (<[2 := UserRow "Friend" friend_pwd_hash]>
               (<[1 := UserRow "You" your_pwd_hash]> (user_table st))) st)
  else Some st.

(** *** Login manager *)

(** [load_user] *)
Definition load_user (st : state) (user_id : Z) : option User.t :=
  match user_table st !! user_id with
  | Some user_row => Some (User.mk user_id (username user_row))
  | None => None
  end.

(** [current_user]: the user the session's id loads; [None] is the
    anonymous user. *)
Definition current_user (st : state) : option User.t :=
  match session st with
  | Some user_id => load_user st user_id
  | None => None
  end.

(** [@login_required]: an anonymous caller is sent to [login_view]. *)
Definition login_required (f : User.t → view) : view :=
  λ req st,
    match current_user st with
    | Some u => f u req st
    | None => (st, Redirect ep_login)
    end.

(** [@app.route(..., methods=...)], for the methods of [http_method]. *)
Definition route (methods : list http_method) (f : view) : view :=
  λ req st,
    if bool_decide (method req ∈ methods) then f req st
    else (st, MethodNotAllowed).

(** *** Uploads *)

(** [bool(file)] is [bool(file.filename)]. *)
Definition file_truthy (file : file_storage) : bool :=
  negb (String.eqb (filename file) "").

(** [file.save(dst)] when it returns. *)
Definition file_save (file : file_storage) (dst : string) (d : filesystem) : filesystem :=
  FileSystem (fs_dirs d) (<[dst := stream file]> (fs_files d)).

(** What [file.save(dst)] leaves when the copy raised. *)
Definition file_save_broken (written dst : string) (d : filesystem) : filesystem :=
  FileSystem (fs_dirs d) (<[dst := written]> (fs_files d)).

(** [file.save(dst)] returns. *)
Definition save_succeeds (d : filesystem) (dst : string) (file : file_storage) : bool :=
  match os_save d dst file with
  | save_ok => true
  | _ => false
  end.

(** The block FILE UPLOAD LOGIC of [add_memory] and [edit_memory]: from
    the [photo_url] it starts with, the disk after it and the [photo_url]
    after it, or [None] when [file.save] raised (the upload directory has
    been made by then, and a copy that broke has left a file). *)
Definition file_upload_logic (req : request) (photo_url : option string) (d : filesystem)
  : filesystem * option (option string) :=
  match files req !! "photo" with
  | Some file =>
      if file_truthy file && allowed_file (filename file) then
        let name := secure_filename (filename file) in
        let filepath := Py.path_join UPLOAD_FOLDER name in
        let d := makedirs_upload_folder d in
        match os_save d filepath file with
        | save_ok =>
            (file_save file filepath d, Some (Some (Py.path_join UPLOAD_FOLDER name)))
        | save_open_error => (d, None)
        | save_write_error written => (file_save_broken written filepath d, None)
        end
      else (d, Some photo_url)
  | None => (d, Some photo_url)
  end.

(** *** Views *)

(** [login] *)
Definition login : view :=
  λ req st,
    match current_user st with
    | Some _ => (st, Redirect ep_home)
    | None =>
        match method req with
        | POST =>
            match form req !! "username", form req !! "password" with
            | Some username, Some password =>
                match select_user_by_username (user_table st) username with
                | Some (user_id, user_row) =>
                    if check_password_hash (password_hash user_row) password then
                      match load_user st user_id with
                      | Some user => (with_session (Some (User.id user)) st, Redirect ep_home)
                      | None => (st, InternalServerError)
                      end
                    else (st, RenderTemplate (login_html (Some "Invalid credentials")))
                | None => (st, RenderTemplate (login_html (Some "Invalid credentials")))
                end
            | _, _ => (st, BadRequest)
            end
        | GET => (st, RenderTemplate (login_html None))
        end
    end.

(** [logout] *)
Definition logout : view :=
  login_required (λ _ _ st, (with_session None st, Redirect ep_login)).

(** The five fields both memory forms read, in the order of the code; a
    key that is not in the form raises (400). *)
Definition memory_form (req : request) : option (string * string * string * string * string) :=
  title ← form req !! "title";
  story ← form req !! "story";
  latitude ← form req !! "latitude";
  longitude ← form req !! "longitude";
  date ← form req !! "date";
  Some (title, story, latitude, longitude, date).

(** [add_memory]; an exception of [file.save] is answered 500, before the
    INSERT. *)
Definition add_memory : view :=
  login_required (λ current_user req st,
    match method req with
    | POST =>
        match memory_form req with
        | Some (title, story, latitude, longitude, date) =>
            match file_upload_logic req None (fs st) with
            | (d, Some photo_url) =>
                let row :=
                  MemoryRow title story (real_affinity latitude) (real_affinity longitude)
                            photo_url (numeric_affinity date) (User.id current_user) in
                (with_memory_table (sql_insert row (memory_table st)) (with_fs d st),
                 Redirect ep_home)
            | (d, None) => (with_fs d st, InternalServerError)
            end
        | None => (st, BadRequest)
        end
    | GET => (st, RenderTemplate add_memory_html)
    end).

(** [edit_memory]; an exception of the SELECT or of [file.save] is answered
    500, the latter before the UPDATE. *)
Definition edit_memory (memory_id : Z) : view :=
  login_required (λ current_user req st,
    match sql_select_bound memory_id (memory_table st) with
    | overflow_error => (st, InternalServerError)
    | fetchone None => (st, Redirect ep_home)
    | fetchone (Some memory) =>
        if bool_decide (user_id memory ≠ User.id current_user) then (st, Redirect ep_home)
        else
          match method req with
          | POST =>
              match memory_form req with
              | Some (title, story, latitude, longitude, date) =>
                  match file_upload_logic req (photo_url memory) (fs st) with
                  | (d, Some photo_url) =>
                      let set r :=
                        MemoryRow title story (real_affinity latitude)
                                  (real_affinity longitude) photo_url (numeric_affinity date)
                                  (user_id r) in
                      (with_memory_table (sql_update set memory_id (memory_table st))
                         (with_fs d st),
                       Redirect ep_home)
                  | (d, None) => (with_fs d st, InternalServerError)
                  end
              | None => (st, BadRequest)
              end
          | GET => (st, RenderTemplate (edit_memory_html memory_id memory))
          end
    end).

(** [delete_memory] *)
Definition delete_memory (memory_id : Z) : view :=
  route [POST] (login_required (λ current_user req st,
    match sql_select_bound memory_id (memory_table st) with
    | overflow_error => (st, InternalServerError)
    | fetchone None => (st, Redirect ep_home)
    | fetchone (Some memory) =>
        if bool_decide (user_id memory ≠ User.id current_user) then (st, Redirect ep_home)
        else (with_memory_table (sql_delete memory_id (memory_table st)) st, Redirect ep_home)
    end)).

(** The listing of [appreciation]: the notes joined with their authors,
    [ORDER BY a.id DESC]. *)
Definition select_appreciations (st : state) : list (Z * string * string) :=
  omap (λ ka : Z * appreciation_row,
          u ← user_table st !! author_id ka.2;
          Some (ka.1, text ka.2, username u))
       (merge_sort id_desc (map_to_list (rows (appreciation_table st)))).

(** [appreciation] *)
Definition appreciation : view :=
  login_required (λ current_user req st,
    match method req with
    | POST =>
        match form req !! "text" with
        | Some text =>
            let author_id := User.id current_user in
            let recipient_id := if bool_decide (author_id = 2) then 1 else 2 in
            let row := AppreciationRow text author_id recipient_id in
            (with_appreciation_table (sql_insert row (appreciation_table st)) st,
             Redirect ep_appreciation)
        | None => (st, BadRequest)
        end
    | GET => (st, RenderTemplate (appreciation_html (select_appreciations st)))
    end).

(** [edit_appreciation] *)
Definition edit_appreciation (note_id : Z) : view :=
  login_required (λ current_user req st,
    match sql_select_bound note_id (appreciation_table st) with
    | overflow_error => (st, InternalServerError)
    | fetchone None => (st, Redirect ep_appreciation)
    | fetchone (Some note) =>
        if bool_decide (author_id note ≠ User.id current_user) then (st, Redirect ep_appreciation)
        else
          match method req with
          | POST =>
              match form req !! "text" with
              | Some new_text =>
                  let set r := AppreciationRow new_text (author_id r) (recipient_id r) in
                  (with_appreciation_table (sql_update set note_id (appreciation_table st)) st,
                   Redirect ep_appreciation)
              | None => (st, BadRequest)
              end
          | GET => (st, RenderTemplate (edit_appreciation_html note_id note))
          end
    end).

(** [delete_appreciation] *)
Definition delete_appreciation (note_id : Z) : view :=
  route [POST] (login_required (λ current_user req st,
    match sql_select_bound note_id (appreciation_table st) with
    | overflow_error => (st, InternalServerError)
    | fetchone None => (st, Redirect ep_appreciation)
    | fetchone (Some note) =>
        if bool_decide (author_id note ≠ User.id current_user) then (st, Redirect ep_appreciation)
        else (with_appreciation_table (sql_delete note_id (appreciation_table st)) st,
              Redirect ep_appreciation)
    end)).

End App.

(** ** An instance to run the views on

    Decimal literals read exactly, as rationals (sign, digits, fraction and
    exponent, no blanks around them and no rounding to a double), and
    [secure_filename] on ASCII names.  The theorems below do not depend on
    it; it serves to evaluate the views on concrete requests. *)

Module Run.

Definition digit (c : ascii) : option Z :=
  let n := Z.of_N (N_of_ascii c) in
  if (48 <=? n) && (n <=? 57) then Some (n - 48) else None.

(** The digits at the head of [s]: their value after [acc], how many they
    are after [n], and the rest of [s]. *)
Fixpoint read_digits (s : string) (acc : Z) (n : nat) : Z * nat * string :=
  match s with
  | String c rest =>
      match digit c with
      | Some d => read_digits rest (10 * acc + d) (S n)
      | None => (acc, n, s)
      end
  | EmptyString => (acc, n, s)
  end.

Definition read_sign (s : string) : bool * string :=
  match s with
  | String "-" rest => (true, rest)
  | String "+" rest => (false, rest)
  | _ => (false, s)
  end.

Definition signed (neg : bool) (z : Z) : Z := if neg then - z else z.

Definition decimal_of_text (s : string) : option Q :=
  let '(neg, s1) := read_sign s in
  let '(ip, ni, s2) := read_digits s1 0 0 in
  let '(m, nf, s3) :=
    match s2 with
    | String "." rest => read_digits rest ip 0
    | _ => (ip, 0%nat, s2)
    end in
  if bool_decide ((ni + nf)%nat = 0%nat) then None
  else
    let exponent :=
      match s3 with
      | String c rest =>
          if Ascii.eqb c "e" || Ascii.eqb c "E" then
            let '(eneg, r1) := read_sign rest in
            let '(e, ne, r2) := read_digits r1 0 0 in
            if bool_decide (ne = 0%nat) then None else Some (signed eneg e, r2)
          else Some (0, s3)
      | EmptyString => Some (0, s3)
      end in
    match exponent with
    | Some (e, EmptyString) =>
        Some (Qred (inject_Z (signed neg m) * Qpower (inject_Z 10) (e - Z.of_nat nf)))
    | _ => None
    end.

Definition sqlite : Sqlite := {|
  real := Q;
  numeric_of_text s :=
    match decimal_of_text s with
    | Some q => Some (if Pos.eqb (Qden q) 1 then inl (Qnum q) else inr q)
    | None => None
    end;
  real_of_int := inject_Z;
|}.

Definition is_space (c : ascii) : bool :=
  let n := N_of_ascii c in ((9 <=? n) && (n <=? 13))%N || (n =? 32)%N.

Definition is_safe (c : ascii) : bool :=
  let n := N_of_ascii c in
  (((48 <=? n) && (n <=? 57)) || ((65 <=? n) && (n <=? 90)) || ((97 <=? n) && (n <=? 122))
   || (n =? 95) || (n =? 46) || (n =? 45))%N.

Definition is_dot_or_underscore (c : ascii) : bool :=
  Ascii.eqb c "." || Ascii.eqb c "_".

(** ["_".join(s.split())] on a list of characters: [pending] tells that a
    word was read and blanks seen after it. *)
Fixpoint join_words (l : list ascii) (started pending : bool) : list ascii :=
  match l with
  | [] => []
  | c :: rest =>
      if is_space c then join_words rest started started
      else (if pending then ["_"%char; c] else [c]) ++ join_words rest true false
  end.

Fixpoint lstrip (l : list ascii) : list ascii :=
  match l with
  | c :: rest => if is_dot_or_underscore c then lstrip rest else l
  | [] => []
  end.

(** werkzeug's [secure_filename] on an ASCII name, on POSIX: [/] becomes a
    blank, blanks between words become [_], every character outside
    [A-Za-z0-9_.-] is dropped, and dots and underscores are stripped at
    both ends. *)
Definition secure_filename_ascii (s : string) : string :=
  let l := (λ c, if Ascii.eqb c "/" then " "%char else c) <$> String.list_ascii_of_string s in
  let l := List.filter is_safe (join_words l false false) in
  String.string_of_list_ascii (rev (lstrip (rev (lstrip l)))).

Definition werkzeug : Werkzeug := {|
  secure_filename := secure_filename_ascii;
  generate_password_hash pwd := "plain$" +:+ pwd;
  check_password_hash pwhash pwd := String.eqb pwhash ("plain$" +:+ pwd);
|}.

(** A disk that takes file names of up to 255 bytes under the upload
    folder, as most file systems do. *)
Definition os : Os := {|
  os_save _ dst _ :=
    if Nat.leb (String.length dst) (String.length UPLOAD_FOLDER + 1 + 255) then save_ok
    else save_open_error;
|}.

Definition getenv (key : string) : option string :=
  if String.eqb key "YOUR_PASSWORD" then Some "alpha"
  else if String.eqb key "FRIEND_PASSWORD" then Some "beta"
  else None.

(** The state after the first start, nobody logged in. *)
Definition started : state (sqlite_lib := sqlite) :=
  default no_database (init_db (werkzeug_lib := werkzeug) getenv no_database).

Definition post (fields : list (string * string)) (uploads : list (string * file_storage))
  : request :=
  Request POST (list_to_map fields) (list_to_map uploads).

Definition get : request := Request GET ∅ ∅.

Definition login_as (name pwd : string) (st : state (sqlite_lib := sqlite)) : state (sqlite_lib := sqlite) :=
  (login (werkzeug_lib := werkzeug) (post [("username", name); ("password", pwd)] []) st).1.

(** User 1 and user 2 logged in after the first start. *)
Definition you : state (sqlite_lib := sqlite) := login_as "You" "alpha" started.
Definition friend : state (sqlite_lib := sqlite) := login_as "Friend" "beta" started.

Definition trip : list (string * string) :=
  [("title", "Trip"); ("story", "Fun"); ("latitude", "1.0"); ("longitude", "2.0");
   ("date", "2024-01-01")].

(** User 1 has created a memory and a note; they have the id 1 each. *)
Definition you_wrote : state (sqlite_lib := sqlite) :=
  (appreciation (post [("text", "thanks")] [])
     (add_memory (werkzeug_lib := werkzeug) (os_lib := os) (post trip []) you).1).1.

(** Then user 1 logs out and user 2 logs in. *)
Definition friend_reads : state (sqlite_lib := sqlite) :=
  login_as "Friend" "beta" (logout get you_wrote).1.

Definition cat : file_storage := FileStorage "cat.PNG" "PNG89".
Definition payload : file_storage := FileStorage "payload.exe" "MZ".

(** User 1 has created a memory with a photo. *)
Definition you_pinned : state (sqlite_lib := sqlite) :=
  (add_memory (werkzeug_lib := werkzeug) (os_lib := os) (post trip [("photo", cat)]) you).1.

(** The rows these requests are stored as. *)
Definition trip_row (photo : option string) : memory_row (sqlite_lib := sqlite) :=
  MemoryRow (sqlite_lib := sqlite) "Trip" "Fun"
    (SqlReal (sqlite_lib := sqlite) (1 # 1)) (SqlReal (sqlite_lib := sqlite) (2 # 1))
    photo (SqlText "2024-01-01") 1.

(** The trip with a latitude that is no number. *)
Definition lost_trip : list (string * string) :=
  [("title", "Trip"); ("story", "Fun"); ("latitude", "abc"); ("longitude", "2.0");
   ("date", "2024-01-01")].

(** The trip without its date. *)
Definition undated_trip : list (string * string) :=
  [("title", "Trip"); ("story", "Fun"); ("latitude", "1.0"); ("longitude", "2.0")].

Definition walk : list (string * string) :=
  [("title", "Walk"); ("story", "Rain"); ("latitude", "-3.5"); ("longitude", "40");
   ("date", "2024-02-02")].

(** A photo whose name has 300 letters before its extension: the upload
    rule accepts it, the disk does not. *)
Fixpoint letters (n : nat) (rest : string) : string :=
  match n with
  | O => rest
  | S n => String "a" (letters n rest)
  end.

Definition long_photo : file_storage := FileStorage (letters 300 ".png") "PNG89".

(** The smallest id that [sqlite3] cannot bind. *)
Definition huge_id : Z := 2 ^ 63.

End Run.

(** ** Notions the properties are stated with *)

(** A file the upload rule of the specification accepts: it has a name, and
    the name has an allowed extension. *)
Definition valid_photo (file : file_storage) : Prop :=
  filename file ≠ "" ∧ has_allowed_extension (filename file).

(** The request brings no file under [photo] that the upload rule accepts. *)
Definition no_valid_photo (req : request) : Prop :=
  ∀ file, files req !! "photo" = Some file → ¬ valid_photo file.

(** Where an accepted upload is written, and what [photo_url] records. *)
Definition upload_path {werkzeug_lib : Werkzeug} (file : file_storage) : string :=
  Py.path_join UPLOAD_FOLDER (secure_filename (filename file)).


(** The caller may not change memory [k]: there is no such row, or its owner
    is somebody else. *)
Definition memory_not_owned {sqlite_lib : Sqlite} (st : state) (u : User.t) (k : Z) : Prop :=
  sql_select k (memory_table st) = None ∨
  ∃ m, sql_select k (memory_table st) = Some m ∧ user_id m ≠ User.id u.

(** The same for note [k] and its author. *)
Definition note_not_owned {sqlite_lib : Sqlite} (st : state) (u : User.t) (k : Z) : Prop :=
  sql_select k (appreciation_table st) = None ∨
  ∃ a, sql_select k (appreciation_table st) = Some a ∧ author_id a ≠ User.id u.

(** Some row of [user] has this username. *)
Definition username_exists (users : gmap Z user_row) (name : string) : Prop :=
  ∃ k r, users !! k = Some r ∧ username r = name.

(** ** The index page and the routes *)

(** The order SQLite sorts stored values in ([ORDER BY]): [sql_le x y] when
    [x] comes before [y], or with it, in ascending order. *)
Class SqliteOrder {sqlite_lib : Sqlite} := {
  sql_le : sql_value → sql_value → Prop;
  sql_le_dec :: RelDecision sql_le;
}.

Section Routes.
Context {sqlite_lib : Sqlite} {werkzeug_lib : Werkzeug} {os_lib : Os}
        {sqlite_order : SqliteOrder}.

(** [ORDER BY date DESC] on the rows of [memory] with their ids. *)
Definition date_desc (x y : Z * memory_row) : Prop := sql_le (date y.2) (date x.2).

#[global] Instance date_desc_dec : RelDecision date_desc.
Proof. intros x y. unfold date_desc. apply _. Defined.

(** [SELECT * FROM memory ORDER BY date DESC], [fetchall()].  Among rows of
    equal date SQLite promises no order; they come here in one of the orders
    it may give. *)
Definition select_memories (st : state) : list (Z * memory_row) :=
  merge_sort date_desc (map_to_list (rows (memory_table st))).

(** What a request to any route ends in: a response of the views above, or
    the index page with the name and the memories it is rendered with. *)
Inductive reply :=
| Plain (r : response)
| index_html (username : string) (memories : list (Z * memory_row)).

(** [home], with its route (GET only) and [@login_required]. *)
Definition home : request → state → state * reply :=
  λ req st,
    if bool_decide (method req ∈ [GET]) then
      match current_user st with
      | Some current_user =>
          let username :=
            if String.eqb (User.username current_user) "" then "Guest"
            else User.username current_user in
          (st, index_html username (select_memories st))
      | None => (st, Plain (Redirect ep_login))
      end
    else (st, Plain MethodNotAllowed).

(** The URLs that [@app.route] registers; the converter [<int:...>] only
    matches a number without sign. *)
Inductive url :=
| url_login
| url_logout
| url_home
| url_add_memory
| url_edit_memory (memory_id : N)
| url_delete_memory (memory_id : N)
| url_appreciation
| url_edit_appreciation (note_id : N)
| url_delete_appreciation (note_id : N).

Definition plain (f : view) : request → state → state * reply :=
  λ req st, ((f req st).1, Plain (f req st).2).

(** The view a URL is routed to; [logout] and [home] are registered for
    GET only. *)
Definition dispatch (u : url) : request → state → state * reply :=
  match u with
  | url_login => plain login
  | url_logout => plain (route [GET] logout)
  | url_home => home
  | url_add_memory => plain add_memory
  | url_edit_memory memory_id => plain (edit_memory (Z.of_N memory_id))
  | url_delete_memory memory_id => plain (delete_memory (Z.of_N memory_id))
  | url_appreciation => plain appreciation
  | url_edit_appreciation note_id => plain (edit_appreciation (Z.of_N note_id))
  | url_delete_appreciation note_id => plain (delete_appreciation (Z.of_N note_id))
  end.

(** One request of a client: the client sends the session cookie it holds,
    [cookie], and the answer carries the cookie it holds from then on.  The
    cookie is signed, so a client can only send one that the server gave
    out; any cookie is admitted here, which makes what is proved for all
    requests stronger. *)
Definition serve_one (cookie : option Z) (u : url) (req : request) (st : state)
  : state * reply :=
  dispatch u req (with_session cookie st).

(** A sequence of requests, of any clients in any order. *)
Fixpoint serve (l : list (option Z * url * request)) (st : state) : state :=
  match l with
  | [] => st
  | (cookie, u, req) :: rest => serve rest (serve_one cookie u req st).1
  end.

(** *** What the requests keep *)

(** No row has an id above the counter of its table. *)
Definition ids_below_sequence {R : Type} (t : table R) : Prop :=
  ∀ k, is_Some (rows t !! k) → k ≤ sqlite_sequence t.

(** The table [user] has no other ids than 1 and 2. *)
Definition two_users (st : state) : Prop :=
  ∀ k, is_Some (user_table st !! k) → k = 1 ∨ k = 2.

(** Every note is from one of the two users to the other. *)
Definition notes_to_other (st : state) : Prop :=
  ∀ k a, sql_select k (appreciation_table st) = Some a →
         (author_id a = 1 ∧ recipient_id a = 2) ∨ (author_id a = 2 ∧ recipient_id a = 1).

(** Every [photo_url] names a file that is on disk. *)
Definition photos_on_disk (st : state) : Prop :=
  ∀ k m p, sql_select k (memory_table st) = Some m → photo_url m = Some p →
           is_Some (fs_files (fs st) !! p).

(** Every memory and every note belongs to a user of the table [user]. *)
Definition owners_exist (st : state) : Prop :=
  (∀ k m, sql_select k (memory_table st) = Some m → is_Some (user_table st !! user_id m)) ∧
  (∀ k a, sql_select k (appreciation_table st) = Some a →
          is_Some (user_table st !! author_id a)).

(** *** What one request can do

    The changes of state that the views make, each with the check the view
    makes before it: [effect st st'] when [st'] is [st] after one of them.
    [dispatch_effect] below shows that a request does nothing else. *)
Inductive effect (st : state) : state → Prop :=
| effect_none :
    effect st st
| effect_login k r :
    current_user st = None →
    user_table st !! k = Some r →
    effect st (with_session (Some k) st)
| effect_logout :
    effect st (with_session None st)
| effect_save_failed req start d :
    file_upload_logic req start (fs st) = (d, None) →
    effect st (with_fs d st)
| effect_add_memory u req d photo title story latitude longitude date :
    current_user st = Some u →
    file_upload_logic req None (fs st) = (d, Some photo) →
    effect st
      (with_memory_table
         (sql_insert
            (MemoryRow title story (real_affinity latitude) (real_affinity longitude)
               photo (numeric_affinity date) (User.id u))
            (memory_table st))
         (with_fs d st))
| effect_edit_memory u req d photo k m title story latitude longitude date :
    current_user st = Some u →
    sql_select k (memory_table st) = Some m →
    user_id m = User.id u →
    file_upload_logic req (photo_url m) (fs st) = (d, Some photo) →
    effect st
      (with_memory_table
         (sql_update
            (λ r, MemoryRow title story (real_affinity latitude) (real_affinity longitude)
                    photo (numeric_affinity date) (user_id r))
            k (memory_table st))
         (with_fs d st))
| effect_delete_memory u k m :
    current_user st = Some u →
    sql_select k (memory_table st) = Some m →
    user_id m = User.id u →
    effect st (with_memory_table (sql_delete k (memory_table st)) st)
| effect_add_note u body :
    current_user st = Some u →
    effect st
      (with_appreciation_table
         (sql_insert
            (AppreciationRow body (User.id u) (if bool_decide (User.id u = 2) then 1 else 2))
            (appreciation_table st))
         st)
| effect_edit_note u k a body :
    current_user st = Some u →
    sql_select k (appreciation_table st) = Some a →
    author_id a = User.id u →
    effect st
      (with_appreciation_table
         (sql_update (λ r, AppreciationRow body (author_id r) (recipient_id r)) k
            (appreciation_table st))
         st)
| effect_delete_note u k a :
    current_user st = Some u →
    sql_select k (appreciation_table st) = Some a →
    author_id a = User.id u →
    effect st (with_appreciation_table (sql_delete k (appreciation_table st)) st).

End Routes.

(** An order for the instance [Run.sqlite]: numbers by value, any number
    before any text, texts byte by byte. *)
Module RunOrder.

Definition number (v : sql_value (sqlite_lib := Run.sqlite)) : option Q :=
  match v with
  | SqlInteger n => Some (inject_Z n)
  | SqlReal x => Some x
  | SqlText _ => None
  end.

Definition value_leb (x y : sql_value (sqlite_lib := Run.sqlite)) : bool :=
  match x, y with
  | SqlText a, SqlText b => String.leb a b
  | SqlText _, _ => false
  | _, SqlText _ => true
  | _, _ =>
      match number x, number y with
      | Some p, Some q => Qle_bool p q
      | _, _ => false
      end
  end.

Definition order : SqliteOrder (sqlite_lib := Run.sqlite) := {|
  sql_le x y := value_leb x y = true;
  sql_le_dec x y := decide (value_leb x y = true);
|}.

Definition to (cookie : option Z) (u : url) (req : request)
  : option Z * url * request := (cookie, u, req).

(** A day of requests after the first start: user 1 logs in, pins the trip
    with a photo and thanks user 2; user 2 logs in, tries to delete the
    memory and to rewrite the note, and answers; user 1 deletes the memory
    and pins the walk. *)
Definition a_day : list (option Z * url * request) :=
  [ to None url_login (Run.post [("username", "You"); ("password", "alpha")] []);
    to (Some 1) url_add_memory (Run.post Run.trip [("photo", Run.cat)]);
    to (Some 1) url_appreciation (Run.post [("text", "thanks")] []);
    to None url_login (Run.post [("username", "Friend"); ("password", "beta")] []);
    to (Some 2) (url_delete_memory 1) (Run.post [] []);
    to (Some 2) (url_edit_appreciation 1) (Run.post [("text", "mine")] []);
    to (Some 2) url_appreciation (Run.post [("text", "welcome")] []);
    to (Some 1) (url_delete_memory 1) (Run.post [] []);
    to (Some 1) url_add_memory (Run.post Run.walk []) ].

(** What user 2 sends during that day. *)
Definition friends_part : list (option Z * url * request) :=
  [ to None url_login (Run.post [("username", "Friend"); ("password", "beta")] []);
    to (Some 2) (url_delete_memory 1) (Run.post [] []);
    to (Some 2) (url_edit_appreciation 1) (Run.post [("text", "mine")] []);
    to (Some 2) url_appreciation (Run.post [("text", "welcome")] []) ].

(** Another file that [secure_filename] names [cat.PNG]. *)
Definition other_cat : file_storage := FileStorage "../cat.PNG" "PNG90".

Definition dog : file_storage := FileStorage "dog.gif" "GIF89".

End RunOrder.

(** * Properties *)

(** ** Strings and the upload rule *)

Example allowed_file_upper : allowed_file "cat.PNG" = true.
Proof. vm_compute. reflexivity. Qed.

Example allowed_file_exe : allowed_file "payload.exe" = false.
Proof. vm_compute. reflexivity. Qed.

Example allowed_file_no_dot : allowed_file "png" = false.
Proof. vm_compute. reflexivity. Qed.

Example allowed_file_last_dot : allowed_file "a.png.exe" = false.
Proof. vm_compute. reflexivity. Qed.

Example allowed_file_hidden : allowed_file ".jpeg" = true.
Proof. vm_compute. reflexivity. Qed.

Example path_join_upload : Py.path_join UPLOAD_FOLDER "cat.PNG" = "static/uploads/cat.PNG".
Proof. vm_compute. reflexivity. Qed.

Lemma rsplit1_no_sep c s : Py.contains c s = false → Py.rsplit1 c s = [s].
Proof.
  induction s as [|d s IH]; simpl; [done|].
  destruct (Ascii.eqb d c); [done|].
  intros Hs. by rewrite (IH Hs).
Qed.

Lemma rsplit1_sep c s :
  Py.contains c s = true →
  ∃ a b, Py.rsplit1 c s = [a; b] ∧ s = a +:+ String c b ∧ Py.contains c b = false.
Proof.
  induction s as [|d s IH]; simpl; [done|].
  destruct (Py.contains c s) eqn:Hs.
  - intros _. destruct (IH eq_refl) as (a & b & -> & -> & Hb).
    by exists (String d a), b.
  - rewrite (rsplit1_no_sep _ _ Hs).
    destruct (Ascii.eqb d c) eqn:Hd; [|done].
    apply Ascii.eqb_eq in Hd as ->. intros _. by exists EmptyString, s.
Qed.

Lemma rsplit1_app c a b :
  Py.contains c b = false → Py.rsplit1 c (a +:+ String c b) = [a; b].
Proof.
  intros Hb. induction a as [|d a IH]; simpl.
  - by rewrite (rsplit1_no_sep _ _ Hb), Ascii.eqb_refl.
  - by rewrite IH.
Qed.

Lemma contains_app c a b : Py.contains c (a +:+ String c b) = true.
Proof.
  induction a as [|d a IH]; simpl; [by rewrite Ascii.eqb_refl|].
  by destruct (Ascii.eqb d c).
Qed.

Lemma allowed_extensions_list s :
  s ∈ ALLOWED_EXTENSIONS ↔ s ∈ [ "png"; "jpg"; "jpeg"; "gif" ].
Proof.
  unfold ALLOWED_EXTENSIONS.
  rewrite !elem_of_union, !elem_of_singleton, !elem_of_cons, elem_of_nil. tauto.
Qed.

(** The code's [allowed_file] decides the upload rule of the
    specification. *)
Lemma allowed_file_spec name :
  allowed_file name = true ↔ has_allowed_extension name.
Proof.
  unfold allowed_file, has_allowed_extension. split.
  - intros [Hdot Hext]%andb_prop.
    destruct (rsplit1_sep _ _ Hdot) as (a & b & Hsplit & -> & Hb).
    rewrite Hsplit in Hext. simpl in Hext.
    apply bool_decide_eq_true_1, allowed_extensions_list in Hext.
    by exists a, b.
  - intros (stem & ext & -> & Hext & Hin).
    change (stem +:+ "." +:+ ext) with (stem +:+ String "." ext).
    rewrite contains_app, (rsplit1_app _ _ _ Hext). simpl.
    by apply bool_decide_eq_true_2, allowed_extensions_list.
Qed.

Lemma file_truthy_spec file : file_truthy file = true ↔ filename file ≠ "".
Proof.
  unfold file_truthy. rewrite negb_true_iff.
  destruct (String.eqb_spec (filename file) "") as [Heq|Hne]; split; congruence.
Qed.

Lemma upload_guard_spec file :
  file_truthy file && allowed_file (filename file) = true ↔ valid_photo file.
Proof.
  unfold valid_photo. by rewrite andb_true_iff, file_truthy_spec, allowed_file_spec.
Qed.

(** ** Tables *)

Section TableFacts.
Context {R : Type}.
Implicit Types (t : table R) (m : gmap Z R) (k : Z).

Lemma max_rowid_ge m k : is_Some (m !! k) → k ≤ max_rowid m.
Proof.
  unfold max_rowid. revert k.
  apply (map_fold_weak_ind (λ r m, ∀ k, is_Some (m !! k) → k ≤ r)).
  - intros k [x Hx]. by rewrite lookup_empty in Hx.
  - intros i x m' r _ IH k Hk.
    destruct (decide (i = k)) as [->|Hne]; [lia|].
    rewrite (lookup_insert_ne m' i k x Hne) in Hk. specialize (IH k Hk). lia.
Qed.

(** The id AUTOINCREMENT gives is the id of no row. *)
Lemma next_rowid_fresh t : sql_select (next_rowid t) t = None.
Proof.
  unfold sql_select. destruct (rows t !! next_rowid t) eqn:Hk; [|done].
  assert (next_rowid t ≤ max_rowid (rows t)) by (apply max_rowid_ge; eauto).
  unfold next_rowid in *. lia.
Qed.

Lemma sql_select_insert t r : sql_select (next_rowid t) (sql_insert r t) = Some r.
Proof. unfold sql_select, sql_insert. simpl. apply lookup_insert_eq. Qed.

Lemma sql_select_insert_ne t r k :
  k ≠ next_rowid t → sql_select k (sql_insert r t) = sql_select k t.
Proof. intros Hk. unfold sql_select, sql_insert. simpl. by apply lookup_insert_ne. Qed.

Lemma sql_select_update t f k :
  sql_select k (sql_update f k t) = f <$> sql_select k t.
Proof. unfold sql_select, sql_update. simpl. apply lookup_alter_eq. Qed.

Lemma sql_select_update_ne t f k k' :
  k' ≠ k → sql_select k' (sql_update f k t) = sql_select k' t.
Proof. intros Hk. unfold sql_select, sql_update. simpl. by apply lookup_alter_ne. Qed.

Lemma sql_select_delete t k : sql_select k (sql_delete k t) = None.
Proof. unfold sql_select, sql_delete. simpl. apply lookup_delete_eq. Qed.

Lemma sql_select_delete_ne t k k' :
  k' ≠ k → sql_select k' (sql_delete k t) = sql_select k' t.
Proof. intros Hk. unfold sql_select, sql_delete. simpl. by apply lookup_delete_ne. Qed.

Lemma sql_select_bound_Some t k r :
  sql_select k t = Some r → sql_select_bound k t = fetchone (Some r).
Proof. unfold sql_select_bound. by intros ->. Qed.

Lemma sql_select_bound_None t k :
  sql_select k t = None → sqlite_integer k = true → sql_select_bound k t = fetchone None.
Proof. unfold sql_select_bound. by intros -> ->. Qed.

Lemma sql_select_bound_overflow t k :
  sql_select k t = None → sqlite_integer k = false → sql_select_bound k t = overflow_error.
Proof. unfold sql_select_bound. by intros -> ->. Qed.

(** The SELECT raises for no id that has a row. *)
Lemma sql_select_bound_cases t k :
  (∃ r, sql_select k t = Some r ∧ sql_select_bound k t = fetchone (Some r)) ∨
  (sql_select k t = None ∧ sqlite_integer k = true ∧ sql_select_bound k t = fetchone None) ∨
  (sql_select k t = None ∧ sqlite_integer k = false ∧ sql_select_bound k t = overflow_error).
Proof.
  unfold sql_select_bound. destruct (sql_select k t) as [r|]; [left; eauto|right].
  destruct (sqlite_integer k); auto.
Qed.

Lemma sql_select_bound_fetched t k r :
  sql_select_bound k t = fetchone (Some r) → sql_select k t = Some r.
Proof.
  unfold sql_select_bound. destruct (sql_select k t); [by intros [= ->]|].
  by destruct (sqlite_integer k).
Qed.

End TableFacts.

(** ** The views *)

Section Views.
Context {sqlite_lib : Sqlite} {werkzeug_lib : Werkzeug} {os_lib : Os}.
Implicit Types (st : state) (req : request) (u : User.t) (k : Z).

(** Unfold a view behind [@login_required] for a caller known to be
    logged in. *)
Ltac enter_view Hu :=
  unfold edit_memory, delete_memory, add_memory, appreciation, edit_appreciation,
    delete_appreciation, route, login_required;
  rewrite ?Hu.

Lemma current_user_frame st st' :
  user_table st' = user_table st → session st' = session st →
  current_user st' = current_user st.
Proof. unfold current_user, load_user. by intros -> ->. Qed.

Lemma post_allowed req : method req = POST → bool_decide (method req ∈ [POST]) = true.
Proof. intros ->. apply bool_decide_eq_true_2. by apply list_elem_of_singleton. Qed.

(** What the four views answer when the caller may not change the row:
    the state as it is, with the redirect to [listing], or with 500 when
    the id has no row and does not fit SQLite's integers. *)
Lemma refused_memory_cases st u k :
  memory_not_owned st u k →
  (sql_select_bound k (memory_table st) = fetchone None ∧ sqlite_integer k = true) ∨
  (∃ m, sql_select_bound k (memory_table st) = fetchone (Some m) ∧
        bool_decide (user_id m ≠ User.id u) = true) ∨
  (sql_select_bound k (memory_table st) = overflow_error ∧ sqlite_integer k = false ∧
   sql_select k (memory_table st) = None).
Proof.
  intros [Hnone|(m & Hm & Hother)].
  - destruct (sqlite_integer k) eqn:Hfit.
    + left. by rewrite (sql_select_bound_None _ _ Hnone Hfit).
    + right; right. by rewrite (sql_select_bound_overflow _ _ Hnone Hfit).
  - right; left. exists m. rewrite (sql_select_bound_Some _ _ _ Hm).
    split; [done|]. by apply bool_decide_eq_true_2.
Qed.

Lemma refused_note_cases st u k :
  note_not_owned st u k →
  (sql_select_bound k (appreciation_table st) = fetchone None ∧ sqlite_integer k = true) ∨
  (∃ a, sql_select_bound k (appreciation_table st) = fetchone (Some a) ∧
        bool_decide (author_id a ≠ User.id u) = true) ∨
  (sql_select_bound k (appreciation_table st) = overflow_error ∧ sqlite_integer k = false ∧
   sql_select k (appreciation_table st) = None).
Proof.
  intros [Hnone|(a & Ha & Hother)].
  - destruct (sqlite_integer k) eqn:Hfit.
    + left. by rewrite (sql_select_bound_None _ _ Hnone Hfit).
    + right; right. by rewrite (sql_select_bound_overflow _ _ Hnone Hfit).
  - right; left. exists a. rewrite (sql_select_bound_Some _ _ _ Ha).
    split; [done|]. by apply bool_decide_eq_true_2.
Qed.

(** C1.  What the code does for an update or a delete of a memory or of a
    note that does not exist, or that belongs to another user than the
    caller.  The state is never changed.  For an id that fits SQLite's
    64-bit integers the answer is the redirect to the listing ([home] for
    memories, [appreciation] for notes), the same whether the record is
    missing or somebody else's.  For an id that has no row and does not fit
    (2^63 and above, which the URL converter lets through) the SELECT raises
    before the check and the answer is 500: there the claim fails. *)
Theorem C1_refused_mutation_unless_overflow st u k :
  current_user st = Some u →
  (memory_not_owned st u k →
     (∀ req, (edit_memory k req st).1 = st ∧ (delete_memory k req st).1 = st) ∧
     (sqlite_integer k = true →
        (∀ req, edit_memory k req st = (st, Redirect ep_home)) ∧
        (∀ req, method req = POST → delete_memory k req st = (st, Redirect ep_home))) ∧
     (sqlite_integer k = false → sql_select k (memory_table st) = None →
        (∀ req, edit_memory k req st = (st, InternalServerError)) ∧
        (∀ req, method req = POST →
                delete_memory k req st = (st, InternalServerError)))) ∧
  (note_not_owned st u k →
     (∀ req, (edit_appreciation k req st).1 = st ∧ (delete_appreciation k req st).1 = st) ∧
     (sqlite_integer k = true →
        (∀ req, edit_appreciation k req st = (st, Redirect ep_appreciation)) ∧
        (∀ req, method req = POST →
                delete_appreciation k req st = (st, Redirect ep_appreciation))) ∧
     (sqlite_integer k = false → sql_select k (appreciation_table st) = None →
        (∀ req, edit_appreciation k req st = (st, InternalServerError)) ∧
        (∀ req, method req = POST →
                delete_appreciation k req st = (st, InternalServerError)))).
Proof.
  intros Hu. split.
  - intros Hno.
    assert (Hedit : ∀ req,
      edit_memory k req st =
        (st, if sql_select_bound k (memory_table st) is overflow_error
             then InternalServerError else Redirect ep_home)).
    { intros req. enter_view Hu.
      destruct (refused_memory_cases _ _ _ Hno)
        as [[-> _]|[(m & -> & ->)|(-> & _)]]; done. }
    assert (Hdelete : ∀ req, method req = POST →
      delete_memory k req st =
        (st, if sql_select_bound k (memory_table st) is overflow_error
             then InternalServerError else Redirect ep_home)).
    { intros req Hpost. enter_view Hu. rewrite (post_allowed _ Hpost).
      destruct (refused_memory_cases _ _ _ Hno)
        as [[-> _]|[(m & -> & ->)|(-> & _)]]; done. }
    split; [|split].
    + intros req. rewrite Hedit. split; [done|].
      destruct (method req) eqn:Hmethod; [|by rewrite Hdelete].
      unfold delete_memory, route. rewrite Hmethod. done.
    + intros Hfit. destruct (refused_memory_cases _ _ _ Hno)
        as [[Hb _]|[(m & Hb & _)|(_ & Hfit' & _)]]; [| |congruence];
        (split; [intros req; by rewrite Hedit, Hb
                |intros req Hpost; by rewrite (Hdelete req Hpost), Hb]).
    + intros Hfit Hnone. rewrite (sql_select_bound_overflow _ _ Hnone Hfit) in Hedit, Hdelete.
      done.
  - intros Hno.
    assert (Hedit : ∀ req,
      edit_appreciation k req st =
        (st, if sql_select_bound k (appreciation_table st) is overflow_error
             then InternalServerError else Redirect ep_appreciation)).
    { intros req. enter_view Hu.
      destruct (refused_note_cases _ _ _ Hno)
        as [[-> _]|[(a & -> & ->)|(-> & _)]]; done. }
    assert (Hdelete : ∀ req, method req = POST →
      delete_appreciation k req st =
        (st, if sql_select_bound k (appreciation_table st) is overflow_error
             then InternalServerError else Redirect ep_appreciation)).
    { intros req Hpost. enter_view Hu. rewrite (post_allowed _ Hpost).
      destruct (refused_note_cases _ _ _ Hno)
        as [[-> _]|[(a & -> & ->)|(-> & _)]]; done. }
    split; [|split].
    + intros req. rewrite Hedit. split; [done|].
      destruct (method req) eqn:Hmethod; [|by rewrite Hdelete].
      unfold delete_appreciation, route. rewrite Hmethod. done.
    + intros Hfit. destruct (refused_note_cases _ _ _ Hno)
        as [[Hb _]|[(a & Hb & _)|(_ & Hfit' & _)]]; [| |congruence];
        (split; [intros req; by rewrite Hedit, Hb
                |intros req Hpost; by rewrite (Hdelete req Hpost), Hb]).
    + intros Hfit Hnone. rewrite (sql_select_bound_overflow _ _ Hnone Hfit) in Hedit, Hdelete.
      done.
Qed.

(** C2. A note created by caller 1 or 2 is stored under a fresh id with the
    caller as author and the other of the two users as recipient. *)
Theorem C2_recipient_is_other_user st req u body :
  current_user st = Some u →
  method req = POST →
  form req !! "text" = Some body →
  User.id u = 1 ∨ User.id u = 2 →
  ∃ st' note,
    appreciation req st = (st', Redirect ep_appreciation) ∧
    sql_select (next_rowid (appreciation_table st)) (appreciation_table st) = None ∧
    sql_select (next_rowid (appreciation_table st)) (appreciation_table st') = Some note ∧
    (∀ k, k ≠ next_rowid (appreciation_table st) →
          sql_select k (appreciation_table st') = sql_select k (appreciation_table st)) ∧
    text note = body ∧
    author_id note = User.id u ∧
    recipient_id note ≠ author_id note ∧
    (author_id note = 1 → recipient_id note = 2) ∧
    (author_id note = 2 → recipient_id note = 1).
Proof.
  intros Hu Hpost Hbody Hid. enter_view Hu. rewrite Hpost, Hbody.
  eexists _, _. split; [reflexivity|]. simpl.
  split; [apply next_rowid_fresh|].
  split; [apply sql_select_insert|].
  split; [intros k Hk; by apply sql_select_insert_ne|].
  simpl. repeat split; try done; case_bool_decide; lia.
Qed.

Lemma file_upload_logic_valid req file d start :
  files req !! "photo" = Some file → valid_photo file →
  save_succeeds (makedirs_upload_folder d) (upload_path file) file = true →
  file_upload_logic req start d =
    (file_save file (upload_path file) (makedirs_upload_folder d),
     Some (Some (upload_path file))).
Proof.
  intros Hfile Hvalid%upload_guard_spec Hsave. unfold file_upload_logic.
  rewrite Hfile, Hvalid. cbn zeta. fold (upload_path file).
  unfold save_succeeds in Hsave.
  by destruct (os_save (makedirs_upload_folder d) (upload_path file) file).
Qed.

(** [file.save] raised: the block is left by the exception, no file that
    was on disk is gone, and the files at other paths are as before. *)
Lemma file_upload_logic_failed req file d start :
  files req !! "photo" = Some file → valid_photo file →
  save_succeeds (makedirs_upload_folder d) (upload_path file) file = false →
  ∃ d',
    file_upload_logic req start d = (d', None) ∧
    (∀ p, is_Some (fs_files d !! p) → is_Some (fs_files d' !! p)) ∧
    (∀ p, p ≠ upload_path file → fs_files d' !! p = fs_files d !! p).
Proof.
  intros Hfile Hvalid%upload_guard_spec Hsave. unfold file_upload_logic.
  rewrite Hfile, Hvalid. cbn zeta. fold (upload_path file).
  unfold save_succeeds in Hsave.
  destruct (os_save (makedirs_upload_folder d) (upload_path file) file) as [| |written];
    [done| |]; eexists; (split; [done|]); cbn; [done|].
  split.
  - intros p Hp. destruct (decide (p = upload_path file)) as [->|Hne].
    + rewrite lookup_insert_eq. by eexists.
    + by rewrite lookup_insert_ne.
  - intros p Hp. by rewrite lookup_insert_ne.
Qed.

(** An accepted file and an upload block that returned: the file was
    written at its upload path. *)
Lemma file_upload_logic_saved req file d start d' photo :
  files req !! "photo" = Some file → valid_photo file →
  file_upload_logic req start d = (d', Some photo) →
  d' = file_save file (upload_path file) (makedirs_upload_folder d) ∧
  photo = Some (upload_path file).
Proof.
  intros Hfile Hvalid.
  destruct (decide (save_succeeds (makedirs_upload_folder d) (upload_path file) file = true))
    as [Hsave|Hsave%not_true_is_false].
  - rewrite (file_upload_logic_valid _ _ _ _ Hfile Hvalid Hsave). by intros [= <- <-].
  - destruct (file_upload_logic_failed req file d start Hfile Hvalid Hsave) as (d0 & -> & _).
    done.
Qed.

Lemma file_upload_logic_skip req d start :
  no_valid_photo req → file_upload_logic req start d = (d, Some start).
Proof.
  intros Hno. unfold file_upload_logic.
  destruct (files req !! "photo") as [file|] eqn:Hfile; [|done].
  destruct (file_truthy file && allowed_file (filename file)) eqn:Hguard; [|done].
  apply upload_guard_spec in Hguard. by destruct (Hno file Hfile).
Qed.

Lemma file_upload_logic_refused req file d start :
  files req !! "photo" = Some file → ¬ valid_photo file →
  file_upload_logic req start d = (d, Some start).
Proof.
  intros Hfile Hinvalid. apply file_upload_logic_skip.
  intros file' Hfile'. congruence.
Qed.

Lemma payload_exe_rejected file : filename file = "payload.exe" → ¬ valid_photo file.
Proof.
  intros Hname [_ Hext]. apply allowed_file_spec in Hext.
  rewrite Hname in Hext. vm_compute in Hext. discriminate.
Qed.

(** C3, as the code has it.  A logged-in caller posts the five fields and a
    file under [photo].  A file without a name, or whose name has no allowed
    extension (after the last dot, case ignored), is skipped without an
    error: the memory is created with a null [photo_url] and the disk is as
    before; [payload.exe] is such a file.  A file that the rule accepts is
    written under the upload path, and that path is the [photo_url] of the
    new row, when [file.save] returns; when it raises, the answer is 500,
    no memory is created and the files at other paths are as before.  So
    every memory that is created has a [photo_url] exactly when its file
    was accepted, and then the file is on disk. *)
Theorem C3_upload_rule st req u file title story latitude longitude date :
  current_user st = Some u →
  method req = POST →
  memory_form req = Some (title, story, latitude, longitude, date) →
  files req !! "photo" = Some file →
  (¬ valid_photo file →
     ∃ st' m,
       add_memory req st = (st', Redirect ep_home) ∧
       sql_select (next_rowid (memory_table st)) (memory_table st) = None ∧
       sql_select (next_rowid (memory_table st)) (memory_table st') = Some m ∧
       photo_url m = None ∧ fs st' = fs st) ∧
  (valid_photo file →
   save_succeeds (makedirs_upload_folder (fs st)) (upload_path file) file = true →
     ∃ st' m,
       add_memory req st = (st', Redirect ep_home) ∧
       sql_select (next_rowid (memory_table st)) (memory_table st) = None ∧
       sql_select (next_rowid (memory_table st)) (memory_table st') = Some m ∧
       photo_url m = Some (upload_path file) ∧
       fs_files (fs st') !! upload_path file = Some (stream file)) ∧
  (valid_photo file →
   save_succeeds (makedirs_upload_folder (fs st)) (upload_path file) file = false →
     ∃ st',
       add_memory req st = (st', InternalServerError) ∧
       memory_table st' = memory_table st ∧
       (∀ p, p ≠ upload_path file → fs_files (fs st') !! p = fs_files (fs st) !! p)) ∧
  (∀ st' m,
     add_memory req st = (st', Redirect ep_home) →
     sql_select (next_rowid (memory_table st)) (memory_table st') = Some m →
     (photo_url m ≠ None ↔ valid_photo file) ∧
     (valid_photo file →
        photo_url m = Some (upload_path file) ∧
        fs_files (fs st') !! upload_path file = Some (stream file)) ∧
     (¬ valid_photo file → photo_url m = None ∧ fs st' = fs st)) ∧
  (filename file = "payload.exe" →
     ∃ st' m,
       add_memory req st = (st', Redirect ep_home) ∧
       sql_select (next_rowid (memory_table st)) (memory_table st') = Some m ∧
       photo_url m = None ∧ fs st' = fs st).
Proof.
  intros Hu Hpost Hform Hfile.
  assert (Hrefused : ¬ valid_photo file →
     ∃ st' m,
       add_memory req st = (st', Redirect ep_home) ∧
       sql_select (next_rowid (memory_table st)) (memory_table st) = None ∧
       sql_select (next_rowid (memory_table st)) (memory_table st') = Some m ∧
       photo_url m = None ∧ fs st' = fs st).
  { intros Hinvalid. enter_view Hu.
    rewrite Hpost, Hform, (file_upload_logic_refused _ _ _ _ Hfile Hinvalid).
    eexists _, _. split; [reflexivity|]. cbn.
    split; [apply next_rowid_fresh|]. split; [apply sql_select_insert|done]. }
  assert (Hsaved : valid_photo file →
   save_succeeds (makedirs_upload_folder (fs st)) (upload_path file) file = true →
     ∃ st' m,
       add_memory req st = (st', Redirect ep_home) ∧
       sql_select (next_rowid (memory_table st)) (memory_table st) = None ∧
       sql_select (next_rowid (memory_table st)) (memory_table st') = Some m ∧
       photo_url m = Some (upload_path file) ∧
       fs_files (fs st') !! upload_path file = Some (stream file)).
  { intros Hvalid Hsave. enter_view Hu.
    rewrite Hpost, Hform, (file_upload_logic_valid _ _ _ _ Hfile Hvalid Hsave).
    eexists _, _. split; [reflexivity|]. cbn.
    split; [apply next_rowid_fresh|]. split; [apply sql_select_insert|].
    split; [done|apply lookup_insert_eq]. }
  assert (Hfailed : valid_photo file →
   save_succeeds (makedirs_upload_folder (fs st)) (upload_path file) file = false →
     ∃ st',
       add_memory req st = (st', InternalServerError) ∧
       memory_table st' = memory_table st ∧
       (∀ p, p ≠ upload_path file → fs_files (fs st') !! p = fs_files (fs st) !! p)).
  { intros Hvalid Hsave. enter_view Hu. rewrite Hpost, Hform.
    destruct (file_upload_logic_failed req file (fs st) None Hfile Hvalid Hsave)
      as (d' & -> & _ & Hothers).
    eexists. by split. }
  split; [done|]. split; [done|]. split; [done|]. split.
  - intros st' m Hrun Hm.
    destruct (file_truthy file && allowed_file (filename file)) eqn:Hguard.
    + apply upload_guard_spec in Hguard as Hvalid.
      destruct (decide (save_succeeds (makedirs_upload_folder (fs st)) (upload_path file)
                          file = true)) as [Hsave|Hsave%not_true_is_false].
      * destruct (Hsaved Hvalid Hsave) as (st1 & m1 & Hrun1 & _ & Hm1 & Hurl & Hdisk).
        rewrite Hrun in Hrun1. injection Hrun1 as <-.
        rewrite Hm in Hm1. injection Hm1 as <-.
        split; [by rewrite Hurl|]. split; [done|]. intros Hinvalid. by destruct Hinvalid.
      * destruct (Hfailed Hvalid Hsave) as (st1 & Hrun1 & _). congruence.
    + assert (¬ valid_photo file) as Hinvalid
        by (intros Hv%upload_guard_spec; congruence).
      destruct (Hrefused Hinvalid) as (st1 & m1 & Hrun1 & _ & Hm1 & Hurl & Hdisk).
      rewrite Hrun in Hrun1. injection Hrun1 as <-.
      rewrite Hm in Hm1. injection Hm1 as <-.
      split; [by rewrite Hurl|]. split; [done|]. done.
  - intros Hname.
    destruct (Hrefused (payload_exe_rejected file Hname)) as (st' & m & ? & ? & ? & ? & ?).
    by exists st', m.
Qed.

Lemma memory_form_Some req title story latitude longitude date :
  memory_form req = Some (title, story, latitude, longitude, date) ↔
  form req !! "title" = Some title ∧ form req !! "story" = Some story ∧
  form req !! "latitude" = Some latitude ∧ form req !! "longitude" = Some longitude ∧
  form req !! "date" = Some date.
Proof.
  unfold memory_form.
  destruct (form req !! "title"), (form req !! "story"), (form req !! "latitude"),
    (form req !! "longitude"), (form req !! "date"); simpl;
    (split; [intros Heq|intros (? & ? & ? & ? & ?)]; by simplify_eq).
Qed.

Lemma memory_form_None req :
  memory_form req = None ↔
  ∃ key, key ∈ ["title"; "story"; "latitude"; "longitude"; "date"] ∧ form req !! key = None.
Proof.
  unfold memory_form. split.
  - destruct (form req !! "title") eqn:?; [|exists "title"; split; [set_solver|done]].
    destruct (form req !! "story") eqn:?; [|exists "story"; split; [set_solver|done]].
    destruct (form req !! "latitude") eqn:?; [|exists "latitude"; split; [set_solver|done]].
    destruct (form req !! "longitude") eqn:?; [|exists "longitude"; split; [set_solver|done]].
    destruct (form req !! "date") eqn:?; [|exists "date"; split; [set_solver|done]].
    done.
  - intros (key & Hkey & Hnone).
    repeat (apply elem_of_cons in Hkey as [->|Hkey]; [rewrite Hnone; simpl|]).
    + done.
    + by destruct (form req !! "title").
    + by destruct (form req !! "title"), (form req !! "story").
    + by destruct (form req !! "title"), (form req !! "story"), (form req !! "latitude").
    + by destruct (form req !! "title"), (form req !! "story"), (form req !! "latitude"),
        (form req !! "longitude").
    + by apply elem_of_nil in Hkey.
Qed.

Lemma real_affinity_text s : numeric_of_text s = None → real_affinity s = SqlText s.
Proof. unfold real_affinity. by intros ->. Qed.


Lemma numeric_affinity_text s : numeric_of_text s = None → numeric_affinity s = SqlText s.
Proof. unfold numeric_affinity. by intros ->. Qed.

(** C4, as the code has it.  A memory form that lacks one of its five
    fields is answered 400 and changes nothing.  The fields that are there
    are not checked: a form that has the five (and brings no photo that the
    upload rule accepts) is stored, and a coordinate or a date that SQLite
    does not read as a number is stored as the text that was sent. *)
Theorem C4_only_missing_fields_are_rejected st req u :
  current_user st = Some u →
  method req = POST →
  ((∃ key, key ∈ ["title"; "story"; "latitude"; "longitude"; "date"] ∧
           form req !! key = None) →
     add_memory req st = (st, BadRequest)) ∧
  (∀ title story latitude longitude date,
     memory_form req = Some (title, story, latitude, longitude, date) →
     no_valid_photo req →
     ∃ st',
       add_memory req st = (st', Redirect ep_home) ∧
       sql_select (next_rowid (memory_table st)) (memory_table st) = None ∧
       sql_select (next_rowid (memory_table st)) (memory_table st') =
         Some (MemoryRow title story (real_affinity latitude) (real_affinity longitude)
                         None (numeric_affinity date) (User.id u)) ∧
       (numeric_of_text latitude = None → real_affinity latitude = SqlText latitude) ∧
       (numeric_of_text longitude = None → real_affinity longitude = SqlText longitude) ∧
       (numeric_of_text date = None → numeric_affinity date = SqlText date)).
Proof.
  intros Hu Hpost. split.
  - intros Hmissing%memory_form_None. enter_view Hu. by rewrite Hpost, Hmissing.
  - intros title story latitude longitude date Hform Hphoto. enter_view Hu.
    rewrite Hpost, Hform, (file_upload_logic_skip _ _ _ Hphoto).
    eexists. split; [reflexivity|]. simpl.
    split; [apply next_rowid_fresh|].
    split; [apply sql_select_insert|].
    auto using real_affinity_text, numeric_affinity_text.
Qed.

(** C5, as the code has it.  A note form without the field [text] is
    answered 400 and changes nothing.  Any text that is sent, the empty one
    too, is stored as a new note. *)
Theorem C5_only_missing_text_is_rejected st req u :
  current_user st = Some u →
  method req = POST →
  (form req !! "text" = None → appreciation req st = (st, BadRequest)) ∧
  (∀ body, form req !! "text" = Some body →
     ∃ st',
       appreciation req st = (st', Redirect ep_appreciation) ∧
       sql_select (next_rowid (appreciation_table st)) (appreciation_table st) = None ∧
       sql_select (next_rowid (appreciation_table st)) (appreciation_table st') =
         Some (AppreciationRow body (User.id u) (if bool_decide (User.id u = 2) then 1 else 2))).
Proof.
  intros Hu Hpost. split.
  - intros Hnone. enter_view Hu. by rewrite Hpost, Hnone.
  - intros body Hbody. enter_view Hu. rewrite Hpost, Hbody.
    eexists. split; [reflexivity|]. simpl.
    split; [apply next_rowid_fresh|apply sql_select_insert].
Qed.

(** C6. When the owner of a memory updates it and sends no file that the
    upload rule accepts, the row afterwards has the five submitted fields
    (as their columns store them), and the [photo_url] and the owner it had
    before. *)
Theorem C6_photo_url_retained st req u k m title story latitude longitude date :
  current_user st = Some u →
  sql_select k (memory_table st) = Some m →
  user_id m = User.id u →
  method req = POST →
  memory_form req = Some (title, story, latitude, longitude, date) →
  no_valid_photo req →
  ∃ st' m',
    edit_memory k req st = (st', Redirect ep_home) ∧
    sql_select k (memory_table st') = Some m' ∧
    photo_url m' = photo_url m ∧
    m' = MemoryRow title story (real_affinity latitude) (real_affinity longitude)
                   (photo_url m) (numeric_affinity date) (user_id m) ∧
    fs st' = fs st.
Proof.
  intros Hu Hm Howner Hpost Hform Hphoto. enter_view Hu.
  rewrite (sql_select_bound_Some _ _ _ Hm).
  rewrite bool_decide_eq_false_2 by (intros Hne; by apply Hne).
  rewrite Hpost, Hform, (file_upload_logic_skip _ _ _ Hphoto).
  eexists _, _. split; [reflexivity|]. simpl.
  rewrite sql_select_update, Hm. simpl. done.
Qed.


(** C8.  What the code does for a delete (a POST by a caller who is logged
    in) of an id that has no row, memory or note.  The state is never
    changed.  For an id that fits SQLite's 64-bit integers the answer is the
    redirect to the listing and no error; after the owner has deleted a row
    the id has no row, so a second delete is such a no-op, and in every case
    the state after two deletes is the state after one.  For an id that has
    no row and does not fit (2^63 and above) the SELECT raises and the answer
    is 500: there the claim fails. *)
Theorem C8_delete_is_idempotent_unless_overflow st req u k :
  current_user st = Some u →
  method req = POST →
  (sql_select k (memory_table st) = None →
     (sqlite_integer k = true → delete_memory k req st = (st, Redirect ep_home)) ∧
     (sqlite_integer k = false → delete_memory k req st = (st, InternalServerError))) ∧
  (sql_select k (appreciation_table st) = None →
     (sqlite_integer k = true →
        delete_appreciation k req st = (st, Redirect ep_appreciation)) ∧
     (sqlite_integer k = false →
        delete_appreciation k req st = (st, InternalServerError))) ∧
  (∀ m, sql_select k (memory_table st) = Some m → user_id m = User.id u →
     ∃ st1, delete_memory k req st = (st1, Redirect ep_home) ∧
            sql_select k (memory_table st1) = None ∧
            (delete_memory k req st1).1 = st1 ∧
            (sqlite_integer k = true → delete_memory k req st1 = (st1, Redirect ep_home))) ∧
  (∀ a, sql_select k (appreciation_table st) = Some a → author_id a = User.id u →
     ∃ st1, delete_appreciation k req st = (st1, Redirect ep_appreciation) ∧
            sql_select k (appreciation_table st1) = None ∧
            (delete_appreciation k req st1).1 = st1 ∧
            (sqlite_integer k = true →
               delete_appreciation k req st1 = (st1, Redirect ep_appreciation))) ∧
  (delete_memory k req (delete_memory k req st).1).1 = (delete_memory k req st).1 ∧
  (delete_appreciation k req (delete_appreciation k req st).1).1 =
    (delete_appreciation k req st).1.
Proof.
  intros Hu Hpost.
  assert (Hmem_none : ∀ st0, current_user st0 = Some u →
            sql_select k (memory_table st0) = None →
            delete_memory k req st0 =
              (st0, if sqlite_integer k then Redirect ep_home else InternalServerError)).
  { intros st0 Hu0 Hnone. enter_view Hu0. rewrite (post_allowed _ Hpost).
    unfold sql_select_bound. rewrite Hnone. by destruct (sqlite_integer k). }
  assert (Hnote_none : ∀ st0, current_user st0 = Some u →
            sql_select k (appreciation_table st0) = None →
            delete_appreciation k req st0 =
              (st0, if sqlite_integer k then Redirect ep_appreciation
                    else InternalServerError)).
  { intros st0 Hu0 Hnone. enter_view Hu0. rewrite (post_allowed _ Hpost).
    unfold sql_select_bound. rewrite Hnone. by destruct (sqlite_integer k). }
  assert (Hmem_own : ∀ m, sql_select k (memory_table st) = Some m → user_id m = User.id u →
            delete_memory k req st =
              (with_memory_table (sql_delete k (memory_table st)) st, Redirect ep_home)).
  { intros m Hm Hown. enter_view Hu.
    rewrite (post_allowed _ Hpost), (sql_select_bound_Some _ _ _ Hm).
    by rewrite bool_decide_eq_false_2 by (intros Hne; by apply Hne). }
  assert (Hnote_own : ∀ a, sql_select k (appreciation_table st) = Some a →
            author_id a = User.id u →
            delete_appreciation k req st =
              (with_appreciation_table (sql_delete k (appreciation_table st)) st,
               Redirect ep_appreciation)).
  { intros a Ha Hown. enter_view Hu.
    rewrite (post_allowed _ Hpost), (sql_select_bound_Some _ _ _ Ha).
    by rewrite bool_decide_eq_false_2 by (intros Hne; by apply Hne). }
  assert (Hmem_again : ∀ m, sql_select k (memory_table st) = Some m →
            user_id m = User.id u →
            delete_memory k req (with_memory_table (sql_delete k (memory_table st)) st) =
              (with_memory_table (sql_delete k (memory_table st)) st,
               if sqlite_integer k then Redirect ep_home else InternalServerError)).
  { intros m Hm Hown. apply Hmem_none; [|apply sql_select_delete].
    by rewrite (current_user_frame st). }
  assert (Hnote_again : ∀ a, sql_select k (appreciation_table st) = Some a →
            author_id a = User.id u →
            delete_appreciation k req
              (with_appreciation_table (sql_delete k (appreciation_table st)) st) =
              (with_appreciation_table (sql_delete k (appreciation_table st)) st,
               if sqlite_integer k then Redirect ep_appreciation else InternalServerError)).
  { intros a Ha Hown. apply Hnote_none; [|apply sql_select_delete].
    by rewrite (current_user_frame st). }
  split; [|split; [|split; [|split; [|split]]]].
  - intros Hnone. rewrite (Hmem_none st Hu Hnone). by split; intros ->.
  - intros Hnone. rewrite (Hnote_none st Hu Hnone). by split; intros ->.
  - intros m Hm Hown. eexists. split; [by apply (Hmem_own m)|].
    split; [apply sql_select_delete|]. rewrite (Hmem_again m Hm Hown).
    split; [done|]. by intros ->.
  - intros a Ha Hown. eexists. split; [by apply (Hnote_own a)|].
    split; [apply sql_select_delete|]. rewrite (Hnote_again a Ha Hown).
    split; [done|]. by intros ->.
  - destruct (sql_select k (memory_table st)) as [m|] eqn:Hm.
    + destruct (decide (user_id m = User.id u)) as [Hown|Hother].
      * rewrite (Hmem_own m eq_refl Hown). cbn [fst]. by rewrite (Hmem_again m eq_refl Hown).
      * assert (delete_memory k req st = (st, Redirect ep_home)) as Hrefused.
        { enter_view Hu. rewrite (post_allowed _ Hpost), (sql_select_bound_Some _ _ _ Hm).
          by rewrite bool_decide_eq_true_2. }
        rewrite Hrefused. cbn [fst]. by rewrite Hrefused.
    + rewrite (Hmem_none st Hu Hm). cbn [fst]. by rewrite (Hmem_none st Hu Hm).
  - destruct (sql_select k (appreciation_table st)) as [a|] eqn:Ha.
    + destruct (decide (author_id a = User.id u)) as [Hown|Hother].
      * rewrite (Hnote_own a eq_refl Hown). cbn [fst]. by rewrite (Hnote_again a eq_refl Hown).
      * assert (delete_appreciation k req st = (st, Redirect ep_appreciation)) as Hrefused.
        { enter_view Hu. rewrite (post_allowed _ Hpost), (sql_select_bound_Some _ _ _ Ha).
          by rewrite bool_decide_eq_true_2. }
        rewrite Hrefused. cbn [fst]. by rewrite Hrefused.
    + rewrite (Hnote_none st Hu Ha). cbn [fst]. by rewrite (Hnote_none st Hu Ha).
Qed.

Lemma select_user_by_username_Some users name :
  username_exists users name →
  ∃ k r, select_user_by_username users name = Some (k, r) ∧
         users !! k = Some r ∧ username r = name.
Proof.
  intros (k & r & Hk & Hname). unfold select_user_by_username.
  assert ((k, r) ∈ map_to_list users) as Hin by by apply elem_of_map_to_list.
  destruct (list_find_elem_of (λ kr : Z * user_row, username kr.2 = name)
              (map_to_list users) (k, r) Hin Hname) as [[i [k' r']] Hfind].
  rewrite Hfind. simpl. exists k', r'. split; [done|].
  apply list_find_Some in Hfind as (Hi & Hp & _).
  split; [|done]. apply elem_of_map_to_list. by eapply list_elem_of_lookup_2.
Qed.

Lemma select_user_by_username_None users name :
  ¬ username_exists users name → select_user_by_username users name = None.
Proof.
  intros Hno. unfold select_user_by_username.
  destruct (list_find _ _) as [[i [k r]]|] eqn:Hfind; [|done].
  apply list_find_Some in Hfind as (Hi & Hp & _).
  destruct Hno. exists k, r. split; [|done].
  apply elem_of_map_to_list. by eapply list_elem_of_lookup_2.
Qed.

(** C9. Two logins that fail, one with the name of a user and a password
    that does not check against its hash, one with a name that no user has,
    get the same answer: the login page with the error "Invalid
    credentials", and a state that is the one before, the caller still
    anonymous. *)
Theorem C9_login_failures_look_alike st req1 req2 name1 pwd1 name2 pwd2 :
  current_user st = None →
  method req1 = POST →
  form req1 !! "username" = Some name1 →
  form req1 !! "password" = Some pwd1 →
  method req2 = POST →
  form req2 !! "username" = Some name2 →
  form req2 !! "password" = Some pwd2 →
  username_exists (user_table st) name1 →
  (∀ k r, user_table st !! k = Some r → username r = name1 →
          check_password_hash (password_hash r) pwd1 = false) →
  ¬ username_exists (user_table st) name2 →
  login req1 st = (st, RenderTemplate (login_html (Some "Invalid credentials"))) ∧
  login req2 st = (st, RenderTemplate (login_html (Some "Invalid credentials"))) ∧
  login req1 st = login req2 st ∧
  current_user (login req1 st).1 = None ∧
  current_user (login req2 st).1 = None.
Proof.
  intros Hanon Hpost1 Hname1 Hpwd1 Hpost2 Hname2 Hpwd2 Hexists Hwrong Hunknown.
  assert (login req1 st = (st, RenderTemplate (login_html (Some "Invalid credentials"))))
    as Hfail1.
  { unfold login. rewrite Hanon, Hpost1, Hname1, Hpwd1.
    destruct (select_user_by_username_Some _ _ Hexists) as (k & r & -> & Hk & Hr).
    by rewrite (Hwrong k r Hk Hr). }
  assert (login req2 st = (st, RenderTemplate (login_html (Some "Invalid credentials"))))
    as Hfail2.
  { unfold login. rewrite Hanon, Hpost2, Hname2, Hpwd2.
    by rewrite (select_user_by_username_None _ _ Hunknown). }
  rewrite Hfail1, Hfail2. by repeat split.
Qed.

(** C10. When the author of a note updates it, the note keeps its id, its
    author and its recipient and gets the new text; every other note, the
    counter of the table, the memories, the users, the files and the session
    are as before. *)
Theorem C10_edit_changes_text_only st req u k note new_text :
  current_user st = Some u →
  sql_select k (appreciation_table st) = Some note →
  author_id note = User.id u →
  method req = POST →
  form req !! "text" = Some new_text →
  ∃ st' note',
    edit_appreciation k req st = (st', Redirect ep_appreciation) ∧
    sql_select k (appreciation_table st') = Some note' ∧
    text note' = new_text ∧
    author_id note' = author_id note ∧
    recipient_id note' = recipient_id note ∧
    (recipient_id note ≠ author_id note → recipient_id note' ≠ author_id note') ∧
    (∀ k', k' ≠ k →
           sql_select k' (appreciation_table st') = sql_select k' (appreciation_table st)) ∧
    sqlite_sequence (appreciation_table st') = sqlite_sequence (appreciation_table st) ∧
    memory_table st' = memory_table st ∧
    user_table st' = user_table st ∧
    fs st' = fs st ∧
    session st' = session st.
Proof.
  intros Hu Hnote Hown Hpost Htext. enter_view Hu.
  rewrite (sql_select_bound_Some _ _ _ Hnote).
  rewrite bool_decide_eq_false_2 by (intros Hne; by apply Hne).
  rewrite Hpost, Htext.
  eexists _, _. split; [reflexivity|]. simpl.
  rewrite sql_select_update, Hnote. simpl.
  split; [reflexivity|]. simpl.
  repeat split; try done.
  intros k' Hk'. by apply sql_select_update_ne.
Qed.

End Views.

(** ** The views on concrete requests *)

Section Runs.
#[local] Existing Instance Run.sqlite.
#[local] Existing Instance Run.werkzeug.
#[local] Existing Instance Run.os.

(** Close a goal that evaluation decides. *)
Ltac run :=
  first [ reflexivity | discriminate | exact I
        | vm_compute; first [reflexivity | discriminate | exact I] ].

Lemma long_photo_is_valid : valid_photo Run.long_photo.
Proof. apply upload_guard_spec. run. Defined.

Lemma cat_is_valid : valid_photo Run.cat.
Proof. apply upload_guard_spec. run. Defined.

Lemma no_photo_sent fields : no_valid_photo (Run.post fields []).
Proof. intros file Hfile. vm_compute in Hfile. discriminate. Defined.

(** User 2 can neither update nor delete the memory and the note of user 1
    (id 1), nor records that do not exist (id 7): the answer is the same.
    For the id 2^63, which has no row either, the answer is 500. *)
Lemma C1_witness :
  ((∀ req, edit_memory 1 req Run.friend_reads = (Run.friend_reads, Redirect ep_home)) ∧
   (∀ req, edit_memory 7 req Run.friend_reads = (Run.friend_reads, Redirect ep_home)) ∧
   (∀ req, edit_memory Run.huge_id req Run.friend_reads =
             (Run.friend_reads, InternalServerError))) ∧
  ((∀ req, method req = POST →
           delete_appreciation 1 req Run.friend_reads =
             (Run.friend_reads, Redirect ep_appreciation)) ∧
   (∀ req, method req = POST →
           delete_appreciation 7 req Run.friend_reads =
             (Run.friend_reads, Redirect ep_appreciation)) ∧
   (∀ req, method req = POST →
           delete_appreciation Run.huge_id req Run.friend_reads =
             (Run.friend_reads, InternalServerError))).
Proof.
  pose proof (C1_refused_mutation_unless_overflow Run.friend_reads (User.mk 2 "Friend") 1
                ltac:(run)) as [Hmemory1 Hnote1].
  pose proof (C1_refused_mutation_unless_overflow Run.friend_reads (User.mk 2 "Friend") 7
                ltac:(run)) as [Hmemory7 Hnote7].
  pose proof (C1_refused_mutation_unless_overflow Run.friend_reads (User.mk 2 "Friend")
                Run.huge_id ltac:(run)) as [Hmemory_huge Hnote_huge].
  split; (split; [|split]).
  - apply Hmemory1; [|run]. right. eexists. split; run.
  - apply Hmemory7; [|run]. left. run.
  - apply Hmemory_huge; [|run|run]. left. run.
  - apply Hnote1; [|run]. right. eexists. split; run.
  - apply Hnote7; [|run]. left. run.
  - apply Hnote_huge; [|run|run]. left. run.
Defined.

(** A note of user 2 goes to user 1. *)
Lemma C2_witness :
  ∃ st' note,
    appreciation (Run.post [("text", "thanks")] []) Run.friend = (st', Redirect ep_appreciation) ∧
    sql_select 1 (appreciation_table st') = Some note ∧
    author_id note = 2 ∧ recipient_id note = 1.
Proof.
  destruct (C2_recipient_is_other_user Run.friend (Run.post [("text", "thanks")] [])
              (User.mk 2 "Friend") "thanks" ltac:(run) ltac:(run) ltac:(run)
              ltac:(right; run))
    as (st' & note & Hrun & _ & Hnote & _ & _ & Hauthor & _ & _ & Hrecipient).
  exists st', note. repeat split; [exact Hrun|exact Hnote|exact Hauthor|].
  apply Hrecipient, Hauthor.
Defined.

(** A photo that the upload rule accepts and the disk refuses (its name has
    304 characters): the file is not stored, the answer is 500 and no memory
    is created. *)
Lemma C3_counterexample :
  files (Run.post Run.trip [("photo", Run.long_photo)]) !! "photo" = Some Run.long_photo ∧
  valid_photo Run.long_photo ∧
  String.length (filename Run.long_photo) = 304%nat ∧
  current_user Run.you = Some (User.mk 1 "You") ∧
  (add_memory (Run.post Run.trip [("photo", Run.long_photo)]) Run.you).2 =
    InternalServerError ∧
  memory_table (add_memory (Run.post Run.trip [("photo", Run.long_photo)]) Run.you).1 =
    memory_table Run.you ∧
  fs_files (fs (add_memory (Run.post Run.trip [("photo", Run.long_photo)]) Run.you).1)
    !! upload_path Run.long_photo = None.
Proof. split; [run|]. split; [exact long_photo_is_valid|]. repeat split; run. Qed.

(** [cat.PNG] is stored and recorded; a photo with a name of 304
    characters, which the disk refuses, is answered 500 and leaves no
    memory. *)
Lemma C3_witness :
  (∃ st' m,
     add_memory (Run.post Run.trip [("photo", Run.cat)]) Run.you = (st', Redirect ep_home) ∧
     sql_select 1 (memory_table st') = Some m ∧
     photo_url m = Some "static/uploads/cat.PNG" ∧
     fs_files (fs st') !! "static/uploads/cat.PNG" = Some "PNG89") ∧
  (∃ st',
     add_memory (Run.post Run.trip [("photo", Run.long_photo)]) Run.you =
       (st', InternalServerError) ∧
     memory_table st' = memory_table Run.you).
Proof.
  split.
  - destruct (C3_upload_rule Run.you (Run.post Run.trip [("photo", Run.cat)])
                (User.mk 1 "You") Run.cat "Trip" "Fun" "1.0" "2.0" "2024-01-01"
                ltac:(run) ltac:(run) ltac:(run) ltac:(run))
      as (_ & Hsaved & _).
    destruct (Hsaved cat_is_valid ltac:(run)) as (st' & m & Hrun & _ & Hm & Hurl & Hfile).
    exists st', m. repeat split; [exact Hrun|exact Hm|exact Hurl|exact Hfile].
  - destruct (C3_upload_rule Run.you (Run.post Run.trip [("photo", Run.long_photo)])
                (User.mk 1 "You") Run.long_photo "Trip" "Fun" "1.0" "2.0" "2024-01-01"
                ltac:(run) ltac:(run) ltac:(run) ltac:(run))
      as (_ & _ & Hfailed & _).
    destruct (Hfailed long_photo_is_valid ltac:(run)) as (st' & Hrun & Hmemory & _).
    exists st'. split; [exact Hrun|exact Hmemory].
Defined.

(** A latitude that is no number: the memory is created all the same. *)
Lemma C4_counterexample :
  memory_form (Run.post Run.lost_trip []) = Some ("Trip", "Fun", "abc", "2.0", "2024-01-01") ∧
  numeric_of_text "abc" = None ∧
  current_user Run.you = Some (User.mk 1 "You") ∧
  sql_select 1 (memory_table Run.you) = None ∧
  (add_memory (Run.post Run.lost_trip []) Run.you).2 = Redirect ep_home ∧
  sql_select 1 (memory_table (add_memory (Run.post Run.lost_trip []) Run.you).1) =
    Some (MemoryRow "Trip" "Fun" (SqlText "abc") (SqlReal (2 # 1)) None
                    (SqlText "2024-01-01") 1).
Proof. repeat split; run. Qed.

(** The trip without its date is answered 400; the trip with the latitude
    [abc] is stored with that text. *)
Lemma C4_witness :
  add_memory (Run.post Run.undated_trip []) Run.you = (Run.you, BadRequest) ∧
  ∃ st',
    add_memory (Run.post Run.lost_trip []) Run.you = (st', Redirect ep_home) ∧
    sql_select 1 (memory_table st') =
      Some (MemoryRow "Trip" "Fun" (SqlText "abc") (SqlReal (2 # 1)) None
                      (SqlText "2024-01-01") 1).
Proof.
  split.
  - apply (C4_only_missing_fields_are_rejected Run.you (Run.post Run.undated_trip [])
             (User.mk 1 "You") ltac:(run) ltac:(run)).
    exists "date". split; [|run]. apply list_elem_of_In. simpl. tauto.
  - destruct (C4_only_missing_fields_are_rejected Run.you (Run.post Run.lost_trip [])
                (User.mk 1 "You") ltac:(run) ltac:(run)) as [_ Hstored].
    destruct (Hstored "Trip" "Fun" "abc" "2.0" "2024-01-01" ltac:(run)
                (no_photo_sent Run.lost_trip))
      as (st' & Hrun & _ & Hm & _).
    exists st'. split; [exact Hrun|exact Hm].
Defined.

(** An empty text: the note is created all the same. *)
Lemma C5_counterexample :
  form (Run.post [("text", "")] []) !! "text" = Some "" ∧
  current_user Run.you = Some (User.mk 1 "You") ∧
  sql_select 1 (appreciation_table Run.you) = None ∧
  (appreciation (Run.post [("text", "")] []) Run.you).2 = Redirect ep_appreciation ∧
  sql_select 1 (appreciation_table (appreciation (Run.post [("text", "")] []) Run.you).1) =
    Some (AppreciationRow "" 1 2).
Proof. repeat split; run. Qed.

(** A form without [text] is answered 400; the empty text is stored. *)
Lemma C5_witness :
  appreciation (Run.post [] []) Run.you = (Run.you, BadRequest) ∧
  ∃ st',
    appreciation (Run.post [("text", "")] []) Run.you = (st', Redirect ep_appreciation) ∧
    sql_select 1 (appreciation_table st') = Some (AppreciationRow "" 1 2).
Proof.
  split.
  - apply (C5_only_missing_text_is_rejected Run.you (Run.post [] [])
             (User.mk 1 "You") ltac:(run) ltac:(run)). run.
  - destruct (C5_only_missing_text_is_rejected Run.you (Run.post [("text", "")] [])
                (User.mk 1 "You") ltac:(run) ltac:(run)) as [_ Hstored].
    destruct (Hstored "" ltac:(run)) as (st' & Hrun & _ & Hnote).
    exists st'. split; [exact Hrun|exact Hnote].
Defined.

(** The owner rewrites the memory that has the photo [cat.PNG] and sends no
    file: the photo stays. *)
Lemma C6_witness :
  ∃ st' m',
    edit_memory 1 (Run.post Run.walk []) Run.you_pinned = (st', Redirect ep_home) ∧
    sql_select 1 (memory_table st') = Some m' ∧
    photo_url m' = Some "static/uploads/cat.PNG" ∧
    title m' = "Walk".
Proof.
  destruct (C6_photo_url_retained (sqlite_lib := Run.sqlite) Run.you_pinned (Run.post Run.walk []) (User.mk 1 "You") 1
              (Run.trip_row (Some "static/uploads/cat.PNG"))
              "Walk" "Rain" "-3.5" "40" "2024-02-02"
              ltac:(run) ltac:(run) ltac:(run) ltac:(run) ltac:(run)
              (no_photo_sent Run.walk))
    as (st' & m' & Hrun & Hm' & Hurl & Hrow & _).
  exists st', m'. repeat split; [exact Hrun|exact Hm'|exact Hurl|].
  rewrite Hrow. reflexivity.
Defined.


(** User 1 deletes memory 1 twice, and a note that was never there; for
    the id 2^63, which has no row either, the answer is 500. *)
Lemma C8_witness :
  (∃ st1,
     delete_memory 1 (Run.post [] []) Run.you_wrote = (st1, Redirect ep_home) ∧
     sql_select 1 (memory_table st1) = None ∧
     delete_memory 1 (Run.post [] []) st1 = (st1, Redirect ep_home)) ∧
  delete_appreciation 7 (Run.post [] []) Run.you_wrote =
    (Run.you_wrote, Redirect ep_appreciation) ∧
  delete_memory Run.huge_id (Run.post [] []) Run.you_wrote =
    (Run.you_wrote, InternalServerError) ∧
  delete_appreciation Run.huge_id (Run.post [] []) Run.you_wrote =
    (Run.you_wrote, InternalServerError).
Proof.
  destruct (C8_delete_is_idempotent_unless_overflow (sqlite_lib := Run.sqlite) Run.you_wrote
              (Run.post [] []) (User.mk 1 "You") 1 ltac:(run) ltac:(run))
    as (_ & _ & Hagain & _).
  destruct (C8_delete_is_idempotent_unless_overflow (sqlite_lib := Run.sqlite) Run.you_wrote
              (Run.post [] []) (User.mk 1 "You") 7 ltac:(run) ltac:(run))
    as (_ & Habsent & _).
  destruct (C8_delete_is_idempotent_unless_overflow (sqlite_lib := Run.sqlite) Run.you_wrote
              (Run.post [] []) (User.mk 1 "You") Run.huge_id ltac:(run) ltac:(run))
    as (Hhuge_memory & Hhuge_note & _).
  split; [|split; [|split]].
  - destruct (Hagain (Run.trip_row None) ltac:(run) ltac:(run))
      as (st1 & Hrun & Hgone & _ & Hsecond).
    exists st1. split; [exact Hrun|]. split; [exact Hgone|]. by apply Hsecond.
  - apply Habsent; run.
  - apply Hhuge_memory; run.
  - apply Hhuge_note; run.
Defined.

Lemma seeded_users k r :
  user_table Run.started !! k = Some r →
  r = UserRow "You" "plain$alpha" ∨ r = UserRow "Friend" "plain$beta".
Proof.
  intros Hk%elem_of_map_to_list. vm_compute in Hk.
  apply elem_of_cons in Hk as [Hk|Hk]; [right; congruence|].
  apply elem_of_cons in Hk as [Hk|Hk]; [left; congruence|].
  by apply elem_of_nil in Hk.
Defined.

(** The wrong password for [You] and a login as [Nobody] get the same
    answer. *)
Lemma C9_witness :
  login (Run.post [("username", "You"); ("password", "beta")] []) Run.started =
    (Run.started, RenderTemplate (login_html (Some "Invalid credentials"))) ∧
  login (Run.post [("username", "Nobody"); ("password", "alpha")] []) Run.started =
    (Run.started, RenderTemplate (login_html (Some "Invalid credentials"))).
Proof.
  destruct (C9_login_failures_look_alike Run.started
              (Run.post [("username", "You"); ("password", "beta")] [])
              (Run.post [("username", "Nobody"); ("password", "alpha")] [])
              "You" "beta" "Nobody" "alpha"
              ltac:(run) ltac:(run) ltac:(run) ltac:(run) ltac:(run) ltac:(run) ltac:(run))
    as (Hfail1 & Hfail2 & _).
  - exists 1, (UserRow "You" "plain$alpha"). split; run.
  - intros k r Hk Hname. destruct (seeded_users k r Hk) as [-> | ->]; [run|].
    vm_compute in Hname. discriminate.
  - intros (k & r & Hk & Hname).
    destruct (seeded_users k r Hk) as [-> | ->]; vm_compute in Hname; discriminate.
  - split; [exact Hfail1|exact Hfail2].
Defined.

(** User 1 rewords the note to user 2. *)
Lemma C10_witness :
  ∃ st',
    edit_appreciation 1 (Run.post [("text", "thank you")] []) Run.you_wrote =
      (st', Redirect ep_appreciation) ∧
    sql_select 1 (appreciation_table st') = Some (AppreciationRow "thank you" 1 2).
Proof.
  destruct (C10_edit_changes_text_only Run.you_wrote (Run.post [("text", "thank you")] [])
              (User.mk 1 "You") 1 (AppreciationRow "thanks" 1 2) "thank you"
              ltac:(run) ltac:(run) ltac:(run) ltac:(run) ltac:(run))
    as (st' & [body author recipient] & Hrun & Hnote & Htext & Hauthor & Hrecipient & _).
  exists st'. split; [exact Hrun|].
  simpl in Htext, Hauthor, Hrecipient. rewrite Hnote, Htext, Hauthor, Hrecipient. reflexivity.
Defined.

(** The second scenario of the specification: user 2 sees the note of user 1
    under the name of its author, tries to delete it, and the note is still
    there. *)
Example scenario_note_persists :
  (appreciation Run.get Run.friend_reads).2 =
    RenderTemplate (appreciation_html [(1, "thanks", "You")]) ∧
  delete_appreciation 1 (Run.post [] []) Run.friend_reads =
    (Run.friend_reads, Redirect ep_appreciation) ∧
  sql_select 1 (appreciation_table Run.friend_reads) = Some (AppreciationRow "thanks" 1 2).
Proof. repeat split; run. Qed.

(** [payload.exe] is not written to disk and leaves no [photo_url]. *)
Example payload_not_stored :
  fs (add_memory (Run.post Run.trip [("photo", Run.payload)]) Run.you).1 = fs Run.you ∧
  sql_select 1 (memory_table (add_memory (Run.post Run.trip [("photo", Run.payload)]) Run.you).1) =
    Some (Run.trip_row None).
Proof. repeat split; run. Qed.

(** The notes are listed newest first. *)
Example listing_newest_first :
  select_appreciations
    (appreciation (Run.post [("text", "hello")] []) Run.friend_reads).1 =
  [(2, "hello", "Friend"); (1, "thanks", "You")].
Proof. run. Qed.

End Runs.

(** ** Every route *)

Section Routing.
Context {sqlite_lib : Sqlite} {werkzeug_lib : Werkzeug} {os_lib : Os}
        {sqlite_order : SqliteOrder}.
Implicit Types (st : state) (req : request) (u : url) (k : Z).

Lemma owner_guard_false (a b : Z) : bool_decide (a ≠ b) = false → a = b.
Proof. intros Hd. apply bool_decide_eq_false in Hd. by destruct (decide (a = b)). Qed.

Lemma load_user_Some st k user :
  load_user st k = Some user →
  User.id user = k ∧ ∃ r, user_table st !! k = Some r ∧ User.username user = username r.
Proof.
  unfold load_user. destruct (user_table st !! k) as [r|] eqn:Hk; [|done].
  intros [= <-]. eauto.
Qed.

(** A request changes the state in one of the ways of [effect], and only
    after the check that goes with it. *)
Lemma dispatch_effect u req st : effect st (dispatch u req st).1.
Proof.
  destruct u; unfold dispatch, plain, home, login, logout, add_memory, edit_memory,
    delete_memory, appreciation, edit_appreciation, delete_appreciation, route,
    login_required; cbn [fst snd];
    repeat case_match; simplify_eq; cbn [fst snd]; try apply effect_none;
    repeat match goal with
           | Hs : sql_select_bound _ _ = fetchone (Some _) |- _ =>
               apply sql_select_bound_fetched in Hs
           end.
  - match goal with Hl : load_user _ _ = Some _ |- _ =>
      apply load_user_Some in Hl as (-> & r & Hr & _) end.
    by eapply effect_login.
  - apply effect_logout.
  - by eapply effect_add_memory.
  - by eapply effect_save_failed.
  - eapply effect_edit_memory; [done|done| |done]. by apply owner_guard_false.
  - by eapply effect_save_failed.
  - eapply effect_delete_memory; [done|done|]. by apply owner_guard_false.
  - match goal with Hu : current_user st = Some ?t |- _ =>
      pose proof (effect_add_note st t) as Heff end.
    match goal with Hb : bool_decide _ = true |- _ => rewrite Hb in Heff end.
    by apply Heff.
  - match goal with Hu : current_user st = Some ?t |- _ =>
      pose proof (effect_add_note st t) as Heff end.
    match goal with Hb : bool_decide _ = false |- _ => rewrite Hb in Heff end.
    by apply Heff.
  - eapply effect_edit_note; [done|done|]. by apply owner_guard_false.
  - eapply effect_delete_note; [done|done|]. by apply owner_guard_false.
Qed.

Lemma file_upload_logic_cases req start d :
  file_upload_logic req start d = (d, Some start) ∨
  (∃ file, files req !! "photo" = Some file ∧ valid_photo file ∧
           save_succeeds (makedirs_upload_folder d) (upload_path file) file = true ∧
           file_upload_logic req start d =
             (file_save file (upload_path file) (makedirs_upload_folder d),
              Some (Some (upload_path file)))) ∨
  (∃ file d', files req !! "photo" = Some file ∧ valid_photo file ∧
              save_succeeds (makedirs_upload_folder d) (upload_path file) file = false ∧
              file_upload_logic req start d = (d', None) ∧
              ∀ p, is_Some (fs_files d !! p) → is_Some (fs_files d' !! p)).
Proof.
  destruct (files req !! "photo") as [file|] eqn:Hfile.
  - destruct (file_truthy file && allowed_file (filename file)) eqn:Hguard.
    + apply upload_guard_spec in Hguard as Hvalid. right.
      destruct (decide (save_succeeds (makedirs_upload_folder d) (upload_path file) file
                        = true)) as [Hsave|Hsave%not_true_is_false].
      * left. exists file. by rewrite (file_upload_logic_valid _ _ _ _ Hfile Hvalid Hsave).
      * right.
        destruct (file_upload_logic_failed req file d start Hfile Hvalid Hsave)
          as (d' & Hrun & Hkeep & _).
        by exists file, d'.
    + left. apply file_upload_logic_refused with file; [done|].
      intros Hvalid%upload_guard_spec. congruence.
  - left. apply file_upload_logic_skip. intros file Hfile'. congruence.
Qed.

(** The upload block keeps every file that is on disk, and what it returns
    as [photo_url] is on disk when what it started with was. *)
Lemma file_upload_logic_keeps req start d p :
  is_Some (fs_files d !! p) → is_Some (fs_files (file_upload_logic req start d).1 !! p).
Proof.
  intros Hp.
  destruct (file_upload_logic_cases req start d)
    as [->|[(file & _ & _ & _ & ->)|(file & d' & _ & _ & _ & -> & Hkeep)]];
    [done| |by apply Hkeep].
  cbn [fst file_save fs_files makedirs_upload_folder].
  destruct (decide (upload_path file = p)) as [->|Hne].
  - rewrite lookup_insert_eq. eauto.
  - by rewrite lookup_insert_ne.
Qed.

Lemma file_upload_logic_on_disk req start d d' p :
  (∀ q, start = Some q → is_Some (fs_files d !! q)) →
  file_upload_logic req start d = (d', Some (Some p)) →
  is_Some (fs_files d' !! p).
Proof.
  intros Hstart.
  destruct (file_upload_logic_cases req start d)
    as [->|[(file & _ & _ & _ & ->)|(file & d0 & _ & _ & _ & -> & _)]]; [| |done].
  - intros [= <- ->]. by apply Hstart.
  - intros [= <- <-]. cbn [file_save fs_files]. rewrite lookup_insert_eq. eauto.
Qed.

Lemma file_upload_logic_keeps_to req start d d' result p :
  file_upload_logic req start d = (d', result) →
  is_Some (fs_files d !! p) → is_Some (fs_files d' !! p).
Proof.
  intros Hrun Hp. pose proof (file_upload_logic_keeps req start d p Hp) as Hkeep.
  by rewrite Hrun in Hkeep.
Qed.

Section SequenceFacts.
Context {R : Type}.
Implicit Types (t : table R).

Lemma sequence_refl t :
  sqlite_sequence t ≤ sqlite_sequence t ∧ (ids_below_sequence t → ids_below_sequence t).
Proof. split; [lia|done]. Qed.

Lemma sequence_insert t r :
  sqlite_sequence t ≤ sqlite_sequence (sql_insert r t) ∧
  (ids_below_sequence t → ids_below_sequence (sql_insert r t)).
Proof.
  unfold ids_below_sequence, sql_insert. cbn. split; [unfold next_rowid; lia|].
  intros Hbelow k Hk.
  destruct (decide (next_rowid t = k)) as [<-|Hne]; [done|].
  rewrite lookup_insert_ne in Hk by done.
  specialize (Hbelow k Hk). unfold next_rowid. lia.
Qed.

Lemma sequence_update t f k :
  sqlite_sequence t ≤ sqlite_sequence (sql_update f k t) ∧
  (ids_below_sequence t → ids_below_sequence (sql_update f k t)).
Proof.
  unfold ids_below_sequence, sql_update. cbn. split; [lia|].
  intros Hbelow k' Hk'. apply Hbelow.
  destruct (decide (k = k')) as [<-|Hne].
  - rewrite lookup_alter_eq in Hk'. by apply fmap_is_Some in Hk'.
  - by rewrite lookup_alter_ne in Hk'.
Qed.

Lemma sequence_delete t k :
  sqlite_sequence t ≤ sqlite_sequence (sql_delete k t) ∧
  (ids_below_sequence t → ids_below_sequence (sql_delete k t)).
Proof.
  unfold ids_below_sequence, sql_delete. cbn. split; [lia|].
  intros Hbelow k' Hk'. apply Hbelow.
  destruct (decide (k = k')) as [<-|Hne].
  - rewrite lookup_delete_eq in Hk'. by destruct Hk'.
  - by rewrite lookup_delete_ne in Hk'.
Qed.

End SequenceFacts.

Section EffectFacts.
Context (st st' : state) (Heffect : effect st st').

Lemma effect_user_table : user_table st' = user_table st.
Proof. by destruct Heffect. Qed.

Lemma effect_sequence_memory :
  sqlite_sequence (memory_table st) ≤ sqlite_sequence (memory_table st') ∧
  (ids_below_sequence (memory_table st) → ids_below_sequence (memory_table st')).
Proof.
  destruct Heffect; cbn [memory_table with_memory_table with_appreciation_table with_fs
                         with_session];
    first [apply sequence_refl | apply sequence_insert | apply sequence_update
          | apply sequence_delete].
Qed.

Lemma effect_sequence_notes :
  sqlite_sequence (appreciation_table st) ≤ sqlite_sequence (appreciation_table st') ∧
  (ids_below_sequence (appreciation_table st) → ids_below_sequence (appreciation_table st')).
Proof.
  destruct Heffect; cbn [appreciation_table with_memory_table with_appreciation_table with_fs
                         with_session];
    first [apply sequence_refl | apply sequence_insert | apply sequence_update
          | apply sequence_delete].
Qed.

Lemma effect_files_kept p :
  is_Some (fs_files (fs st) !! p) → is_Some (fs_files (fs st') !! p).
Proof. destruct Heffect; cbn; try done; by eapply file_upload_logic_keeps_to. Qed.

End EffectFacts.

Lemma current_user_in_table st user :
  current_user st = Some user → is_Some (user_table st !! User.id user).
Proof.
  unfold current_user. destruct (session st) as [k|]; [|done].
  intros (-> & r & -> & _)%load_user_Some. eauto.
Qed.

Lemma current_user_cookie st c user :
  current_user (with_session c st) = Some user → c = Some (User.id user).
Proof.
  unfold current_user. cbn. destruct c as [k|]; [|done].
  by intros (-> & _)%load_user_Some.
Qed.

Ltac table_cases k k' :=
  destruct (decide (k' = k)) as [->|?];
  [rewrite ?sql_select_update, ?sql_select_delete
  |rewrite ?sql_select_update_ne, ?sql_select_delete_ne by done].

Section EffectInvariants.
Context (st st' : state) (Heffect : effect st st').

Lemma effect_notes_to_other : two_users st → notes_to_other st → notes_to_other st'.
Proof.
  intros Husers Hnotes. unfold notes_to_other.
  destruct Heffect
    as [| | | | | | |user body Huser|user k a body Huser Ha Hown|user k a Huser Ha Hown];
    cbn [appreciation_table with_memory_table with_appreciation_table with_fs with_session];
    try done; intros k' a'.
  - destruct (decide (k' = next_rowid (appreciation_table st))) as [->|Hne].
    + rewrite sql_select_insert. intros [= <-]. cbn.
      destruct (Husers _ (current_user_in_table _ _ Huser)) as [-> | ->]; [by left|by right].
    + rewrite sql_select_insert_ne by done. apply Hnotes.
  - table_cases k k'; [|apply Hnotes]. rewrite Ha. intros [= <-]. cbn. by eapply Hnotes.
  - table_cases k k'; [done|apply Hnotes].
Qed.

Lemma effect_photos_on_disk : photos_on_disk st → photos_on_disk st'.
Proof.
  intros Hdisk. unfold photos_on_disk.
  destruct Heffect as [| | |req start d Hsave
                       |user req d photo title story la lo dt Huser Hupload
                       |user req d photo k m title story la lo dt Huser Hm Hown Hupload
                       |user k m Huser Hm Hown| | |];
    cbn [memory_table fs with_memory_table with_appreciation_table with_fs with_session];
    try done; intros k' m' p.
  - intros Hk' Hp. eapply file_upload_logic_keeps_to; [done|]. by eapply Hdisk.
  - destruct (decide (k' = next_rowid (memory_table st))) as [->|Hne].
    + rewrite sql_select_insert. intros [= <-]. cbn [photo_url]. intros ->.
      apply (file_upload_logic_on_disk req None (fs st) d p); [by intros q [=]|done].
    + rewrite sql_select_insert_ne by done. intros Hk' Hp.
      eapply file_upload_logic_keeps_to; [done|]. by eapply Hdisk.
  - table_cases k k'.
    + rewrite Hm. intros [= <-]. cbn [photo_url]. intros ->.
      eapply file_upload_logic_on_disk; [|done]. intros q Hq. by eapply Hdisk.
    + intros Hk' Hp. eapply file_upload_logic_keeps_to; [done|]. by eapply Hdisk.
  - table_cases k k'; [done|apply Hdisk].
Qed.

Lemma effect_owners_exist : owners_exist st → owners_exist st'.
Proof.
  intros [Hmem Hnote]. unfold owners_exist. rewrite (effect_user_table _ _ Heffect).
  destruct Heffect as [| | |req start d Hsave
                       |user req d photo title story la lo dt Huser Hupload
                       |user req d photo k m title story la lo dt Huser Hm Hown Hupload
                       |user k m Huser Hm Hown
                       |user body Huser|user k a body Huser Ha Hown|user k a Huser Ha Hown];
    cbn [memory_table appreciation_table with_memory_table with_appreciation_table with_fs
         with_session]; try done; (split; [|try done]); try done; intros k' r'.
  - destruct (decide (k' = next_rowid (memory_table st))) as [->|Hne].
    + rewrite sql_select_insert. intros [= <-]. cbn. by apply current_user_in_table.
    + rewrite sql_select_insert_ne by done. apply Hmem.
  - table_cases k k'; [|apply Hmem]. rewrite Hm. intros [= <-]. cbn. by eapply Hmem.
  - table_cases k k'; [done|apply Hmem].
  - destruct (decide (k' = next_rowid (appreciation_table st))) as [->|Hne].
    + rewrite sql_select_insert. intros [= <-]. cbn. by apply current_user_in_table.
    + rewrite sql_select_insert_ne by done. apply Hnote.
  - table_cases k k'; [|apply Hnote]. rewrite Ha. intros [= <-]. cbn. by eapply Hnote.
  - table_cases k k'; [done|apply Hnote].
Qed.

(** A caller who is not [o] leaves the memories and the notes of [o] as
    they are, and makes none in the name of [o]. *)
Lemma effect_rows_of_others o :
  (∀ user, current_user st = Some user → User.id user ≠ o) →
  (∀ k m, user_id m = o →
          (sql_select k (memory_table st') = Some m ↔ sql_select k (memory_table st) = Some m)) ∧
  (∀ k a, author_id a = o →
          (sql_select k (appreciation_table st') = Some a ↔
           sql_select k (appreciation_table st) = Some a)).
Proof.
  intros Hcaller.
  destruct Heffect as [| | |req start d Hsave
                       |user req d photo title story la lo dt Huser Hupload
                       |user req d photo k m title story la lo dt Huser Hm Hown Hupload
                       |user k m Huser Hm Hown
                       |user body Huser|user k a body Huser Ha Hown|user k a Huser Ha Hown];
    cbn [memory_table appreciation_table with_memory_table with_appreciation_table with_fs
         with_session]; try done; (split; [|try done]); try done; intros k' r' Hr';
    try specialize (Hcaller _ Huser).
  - destruct (decide (k' = next_rowid (memory_table st))) as [->|Hne].
    + rewrite sql_select_insert, next_rowid_fresh. split; [|done].
      intros [= <-]. by cbn in Hr'.
    + by rewrite sql_select_insert_ne.
  - table_cases k k'; [|done]. rewrite Hm. cbn. split; intros [= <-]; cbn in *; congruence.
  - table_cases k k'; [|done]. rewrite Hm. split; [done|]. intros [= <-]. congruence.
  - destruct (decide (k' = next_rowid (appreciation_table st))) as [->|Hne].
    + rewrite sql_select_insert, next_rowid_fresh. split; [|done].
      intros [= <-]. by cbn in Hr'.
    + by rewrite sql_select_insert_ne.
  - table_cases k k'; [|done]. rewrite Ha. cbn. split; intros [= <-]; cbn in *; congruence.
  - table_cases k k'; [|done]. rewrite Ha. split; [done|]. intros [= <-]. congruence.
Qed.

End EffectInvariants.

(** *** Sequences of requests *)

Lemma serve_one_effect c u req st : effect (with_session c st) (serve_one c u req st).1.
Proof. apply dispatch_effect. Qed.

(** What holds before, is independent of the cookie and is kept by every
    effect, holds after any sequence of requests. *)
Lemma serve_invariant (P : state → Prop) :
  (∀ c st, P st → P (with_session c st)) →
  (∀ st st', effect st st' → P st → P st') →
  ∀ l st, P st → P (serve l st).
Proof.
  intros Hcookie Hstep l. induction l as [|[[c u] req] l IH]; intros st HP; [done|].
  cbn [serve]. apply IH. eapply Hstep; [apply serve_one_effect|]. by apply Hcookie.
Qed.

(** X17. No sequence of requests changes the table [user]: no route creates,
    renames or removes a user, or changes a password. *)
Theorem users_never_change l st : user_table (serve l st) = user_table st.
Proof.
  revert st. induction l as [|[[c u] req] l IH]; intros st; [done|].
  cbn [serve]. rewrite IH. by rewrite (effect_user_table _ _ (serve_one_effect c u req st)).
Qed.

(** X18. An id is given once.  In a state where no row has an id above the
    counter of its table, this stays so through any sequence of requests,
    and the id of a memory or of a note that exists now is below every id
    that is given later, whether the row has been deleted since or not. *)
Theorem ids_are_never_reused l st :
  ids_below_sequence (memory_table st) →
  ids_below_sequence (appreciation_table st) →
  (ids_below_sequence (memory_table (serve l st)) ∧
   ids_below_sequence (appreciation_table (serve l st))) ∧
  (∀ k, is_Some (sql_select k (memory_table st)) →
        k < next_rowid (memory_table (serve l st))) ∧
  (∀ k, is_Some (sql_select k (appreciation_table st)) →
        k < next_rowid (appreciation_table (serve l st))).
Proof.
  intros Hmem Hnote.
  pose (P := λ s : state,
    (ids_below_sequence (memory_table s) ∧ ids_below_sequence (appreciation_table s)) ∧
    sqlite_sequence (memory_table st) ≤ sqlite_sequence (memory_table s) ∧
    sqlite_sequence (appreciation_table st) ≤ sqlite_sequence (appreciation_table s)).
  assert (P (serve l st)) as ([Hmem' Hnote'] & Hseq_mem & Hseq_note).
  { apply (serve_invariant P); [done| |unfold P; repeat split; (done || lia)].
    intros s s' Heff ([Hm Hn] & Hsm & Hsn).
    destruct (effect_sequence_memory _ _ Heff) as [Hle_m Hkeep_m].
    destruct (effect_sequence_notes _ _ Heff) as [Hle_n Hkeep_n].
    unfold P. repeat split; auto; lia. }
  split; [done|]. split; intros k Hk.
  - specialize (Hmem k Hk). unfold next_rowid. lia.
  - specialize (Hnote k Hk). unfold next_rowid. lia.
Qed.

(** X19. When the users are 1 and 2 and every note is from one of them to the
    other, this is so after any sequence of requests. *)
Theorem notes_stay_between_the_two l st :
  two_users st → notes_to_other st → notes_to_other (serve l st).
Proof.
  intros Husers Hnotes.
  apply (serve_invariant (λ s, two_users s ∧ notes_to_other s)); [done| |done].
  intros s s' Heff [Hu Hn]. split; [|by eapply effect_notes_to_other].
  unfold two_users. by rewrite (effect_user_table _ _ Heff).
Qed.

(** X20. No request removes a file from disk, and when every [photo_url] names
    a file that is on disk, this is so after any sequence of requests (a
    memory that is deleted leaves its file behind). *)
Theorem photos_stay_on_disk l st :
  (∀ p, is_Some (fs_files (fs st) !! p) → is_Some (fs_files (fs (serve l st)) !! p)) ∧
  (photos_on_disk st → photos_on_disk (serve l st)).
Proof.
  split.
  - intros p Hp.
    apply (serve_invariant (λ s, is_Some (fs_files (fs s) !! p))); [done| |done].
    intros s s' Heff. by apply effect_files_kept.
  - apply serve_invariant; [done|]. intros s s' Heff. by apply effect_photos_on_disk.
Qed.

(** X21. When every memory and every note belongs to a user of the table
    [user], this is so after any sequence of requests. *)
Theorem owners_stay_users l st : owners_exist st → owners_exist (serve l st).
Proof.
  apply serve_invariant; [done|]. intros s s' Heff. by apply effect_owners_exist.
Qed.

(** X22. Through a sequence of requests none of which carries the session of
    user [o], the memories and the notes of [o] stay as they are, and none
    appears in the name of [o]: only [o] creates, changes or deletes them. *)
Theorem rows_of_others_are_safe l st o :
  (∀ c u req, (c, u, req) ∈ l → c ≠ Some o) →
  (∀ k m, user_id m = o →
          (sql_select k (memory_table (serve l st)) = Some m ↔
           sql_select k (memory_table st) = Some m)) ∧
  (∀ k a, author_id a = o →
          (sql_select k (appreciation_table (serve l st)) = Some a ↔
           sql_select k (appreciation_table st) = Some a)).
Proof.
  revert st. induction l as [|[[c u] req] l IH]; intros st Hcookies; [done|].
  cbn [serve].
  destruct (IH (serve_one c u req st).1) as [IHm IHn].
  { intros c' u' req' Hin. eapply Hcookies. by right. }
  destruct (effect_rows_of_others _ _ (serve_one_effect c u req st) o) as [Hm Hn].
  { intros user Huser%current_user_cookie Hid.
    apply (Hcookies c u req); [by left|]. by rewrite Huser, Hid. }
  split.
  - intros k m Hown. by rewrite (IHm k m Hown), (Hm k m Hown).
  - intros k a Hown. by rewrite (IHn k a Hown), (Hn k a Hown).
Qed.

(** *** Logging in and out *)

Lemma select_user_by_username_found users name k r :
  select_user_by_username users name = Some (k, r) → users !! k = Some r ∧ username r = name.
Proof.
  unfold select_user_by_username.
  destruct (list_find _ _) as [[i [k' r']]|] eqn:Hfind; [|done].
  intros [= -> ->]. apply list_find_Some in Hfind as (Hi & Hp & _).
  split; [|done]. apply elem_of_map_to_list. by eapply list_elem_of_lookup_2.
Qed.

(** X5. A login with the name of a user and a password that checks against the
    hash of that name opens the session of that user: the cookie holds the
    user's id, and the caller is that user from then on. *)
Theorem login_opens_the_session st req name pwd :
  current_user st = None →
  method req = POST →
  form req !! "username" = Some name →
  form req !! "password" = Some pwd →
  username_exists (user_table st) name →
  (∀ k r, user_table st !! k = Some r → username r = name →
          check_password_hash (password_hash r) pwd = true) →
  ∃ k r,
    user_table st !! k = Some r ∧ username r = name ∧
    login req st = (with_session (Some k) st, Redirect ep_home) ∧
    current_user (login req st).1 = Some (User.mk k name).
Proof.
  intros Hanon Hpost Hname Hpwd Hexists Hright.
  destruct (select_user_by_username_Some _ _ Hexists) as (k & r & Hfind & Hk & Hr).
  exists k, r. split; [done|]. split; [done|].
  assert (login req st = (with_session (Some k) st, Redirect ep_home)) as Hlogin.
  { unfold login. rewrite Hanon, Hpost, Hname, Hpwd, Hfind, (Hright k r Hk Hr).
    unfold load_user. by rewrite Hk. }
  split; [done|]. rewrite Hlogin. unfold current_user, load_user. cbn.
  by rewrite Hk, Hr.
Qed.

(** X6. [login] changes nothing but the session, and the session only for an
    anonymous caller who posts the name of a user with a password that
    checks against the hash of that user; the session is then the id of
    that user. *)
Theorem login_needs_the_password req st :
  memory_table (login req st).1 = memory_table st ∧
  appreciation_table (login req st).1 = appreciation_table st ∧
  user_table (login req st).1 = user_table st ∧
  fs (login req st).1 = fs st ∧
  (session (login req st).1 = session st ∨
   ∃ k r pwd,
     session (login req st).1 = Some k ∧
     user_table st !! k = Some r ∧
     current_user st = None ∧
     method req = POST ∧
     form req !! "username" = Some (username r) ∧
     form req !! "password" = Some pwd ∧
     check_password_hash (password_hash r) pwd = true).
Proof.
  unfold login.
  destruct (current_user st) eqn:Hanon; [by repeat split; try left|].
  destruct (method req) eqn:Hmethod; [by repeat split; try left|].
  destruct (form req !! "username") as [name|] eqn:Hname; [|by repeat split; try left].
  destruct (form req !! "password") as [pwd|] eqn:Hpwd; [|by repeat split; try left].
  destruct (select_user_by_username (user_table st) name) as [[k r]|] eqn:Hfind;
    [|by repeat split; try left].
  apply select_user_by_username_found in Hfind as [Hk <-].
  destruct (check_password_hash (password_hash r) pwd) eqn:Hcheck;
    [|by repeat split; try left].
  unfold load_user. rewrite Hk. cbn. repeat split. right. by exists k, r, pwd.
Qed.

Lemma anonymous_dispatch u req st :
  current_user st = None → u ≠ url_login →
  dispatch u req st = (st, Plain (Redirect ep_login)) ∨
  dispatch u req st = (st, Plain MethodNotAllowed).
Proof.
  intros Hanon Hu.
  destruct u; try done;
    unfold dispatch, plain, home, logout, add_memory, edit_memory, delete_memory,
      appreciation, edit_appreciation, delete_appreciation, route, login_required;
    rewrite ?Hanon; try (by left); case_bool_decide; cbn; rewrite ?Hanon; auto.
Qed.


(** X8. [logout] (a GET by a caller who is logged in) empties the session and
    leaves the rest of the state; with that session the caller is anonymous
    and every route but [login] leaves the state as it is. *)
Theorem logout_closes_the_session st req user :
  current_user st = Some user →
  method req = GET →
  dispatch url_logout req st = (with_session None st, Plain (Redirect ep_login)) ∧
  current_user (with_session None st) = None ∧
  (∀ u req', u ≠ url_login →
             (dispatch u req' (with_session None st)).1 = with_session None st).
Proof.
  intros Huser Hget. split; [|split; [done|]].
  - unfold dispatch, plain, route, logout, login_required. by rewrite Hget, Huser.
  - intros u req' Hu.
    by destruct (anonymous_dispatch u req' (with_session None st) eq_refl Hu) as [-> | ->].
Qed.

(** X9. A GET changes nothing, on every route but [logout]. *)
Theorem get_changes_nothing u req st :
  method req = GET →
  u ≠ url_logout →
  (dispatch u req st).1 = st.
Proof.
  intros Hget Hu.
  destruct u; try done;
    unfold dispatch, plain, home, login, add_memory, edit_memory, delete_memory,
      appreciation, edit_appreciation, delete_appreciation, route, login_required;
    rewrite ?Hget; cbn; repeat case_match; done.
Qed.

(** *** Memories *)

(** What [add_memory] answers with the redirect to [home]: a logged-in
    POST with the five fields whose upload block did not raise. *)
Lemma add_memory_succeeded st req :
  (add_memory req st).2 = Redirect ep_home →
  ∃ user title story latitude longitude date d photo,
    current_user st = Some user ∧
    file_upload_logic req None (fs st) = (d, Some photo) ∧
    add_memory req st =
      (with_memory_table
         (sql_insert
            (MemoryRow title story (real_affinity latitude) (real_affinity longitude)
               photo (numeric_affinity date) (User.id user))
            (memory_table st))
         (with_fs d st),
       Redirect ep_home).
Proof.
  unfold add_memory, login_required.
  destruct (current_user st) as [user|]; [|done].
  destruct (method req); [done|].
  destruct (memory_form req) as [[[[[title story] latitude] longitude] date]|]; [|done].
  destruct (file_upload_logic req None (fs st)) as [d [photo|]]; [|done].
  intros _. by exists user, title, story, latitude, longitude, date, d, photo.
Qed.

(** X10. A memory creation that succeeds (the answer is the redirect to
    [home]) adds one row and touches no other: the memories that exist, the
    notes, the users and the session are as before, the counter is the new
    id, and no file is removed from disk. *)
Theorem add_memory_adds_one_row st req :
  (add_memory req st).2 = Redirect ep_home →
  is_Some (sql_select (next_rowid (memory_table st)) (memory_table (add_memory req st).1)) ∧
  sql_select (next_rowid (memory_table st)) (memory_table st) = None ∧
  (∀ k, k ≠ next_rowid (memory_table st) →
        sql_select k (memory_table (add_memory req st).1) = sql_select k (memory_table st)) ∧
  sqlite_sequence (memory_table (add_memory req st).1) = next_rowid (memory_table st) ∧
  appreciation_table (add_memory req st).1 = appreciation_table st ∧
  user_table (add_memory req st).1 = user_table st ∧
  session (add_memory req st).1 = session st ∧
  (∀ p, is_Some (fs_files (fs st) !! p) →
        is_Some (fs_files (fs (add_memory req st).1) !! p)).
Proof.
  intros (user & title & story & latitude & longitude & date & d & photo & Huser & Hupload
          & ->)%add_memory_succeeded.
  cbn. split; [rewrite sql_select_insert; eauto|].
  split; [apply next_rowid_fresh|].
  split; [intros k Hk; by apply sql_select_insert_ne|].
  repeat split. intros p Hp. by eapply file_upload_logic_keeps_to.
Qed.

(** X11. The owner's delete removes the one row and nothing else: the other
    memories, the counter, the notes, the users and the session are as
    before, and so are the files on disk, the photo of the deleted memory
    among them. *)
Theorem delete_memory_removes_one_row st req user k m :
  current_user st = Some user →
  sql_select k (memory_table st) = Some m →
  user_id m = User.id user →
  method req = POST →
  (delete_memory k req st).2 = Redirect ep_home ∧
  sql_select k (memory_table (delete_memory k req st).1) = None ∧
  (∀ k', k' ≠ k →
         sql_select k' (memory_table (delete_memory k req st).1) =
         sql_select k' (memory_table st)) ∧
  sqlite_sequence (memory_table (delete_memory k req st).1) =
    sqlite_sequence (memory_table st) ∧
  fs (delete_memory k req st).1 = fs st ∧
  appreciation_table (delete_memory k req st).1 = appreciation_table st ∧
  user_table (delete_memory k req st).1 = user_table st ∧
  session (delete_memory k req st).1 = session st.
Proof.
  intros Huser Hm Hown Hpost. unfold delete_memory, route, login_required.
  rewrite (post_allowed _ Hpost), Huser, (sql_select_bound_Some _ _ _ Hm).
  rewrite bool_decide_eq_false_2 by (intros Hne; by apply Hne). cbn.
  repeat split; [apply sql_select_delete|]. intros k' Hk'. by apply sql_select_delete_ne.
Qed.

Lemma next_rowid_after_insert_delete {R : Type} (t : table R) (r : R) :
  next_rowid (sql_delete (next_rowid t) (sql_insert r t)) = next_rowid t + 1.
Proof.
  pose proof (next_rowid_fresh t) as Hfresh. unfold sql_select in Hfresh.
  unfold sql_delete, sql_insert. cbn. rewrite delete_insert_id by done.
  unfold next_rowid at 1. cbn. unfold next_rowid. lia.
Qed.

(** X12. A memory that is created (the answer is the redirect to [home])
    and then deleted by its owner leaves the rows of [memory] as they were,
    but not the counter: the next memory gets the id after the deleted one,
    not the same id again. *)
Theorem create_then_delete_memory st req req' :
  (add_memory req st).2 = Redirect ep_home →
  method req' = POST →
  (delete_memory (next_rowid (memory_table st)) req' (add_memory req st).1).2 =
    Redirect ep_home ∧
  rows (memory_table
          (delete_memory (next_rowid (memory_table st)) req' (add_memory req st).1).1) =
    rows (memory_table st) ∧
  next_rowid (memory_table
                (delete_memory (next_rowid (memory_table st)) req' (add_memory req st).1).1) =
    next_rowid (memory_table st) + 1.
Proof.
  intros (user & title & story & latitude & longitude & date & d & photo & Huser & Hupload
          & ->)%add_memory_succeeded Hpost'.
  unfold delete_memory, route, login_required. rewrite (post_allowed _ Hpost'). cbn [fst].
  rewrite (current_user_frame st) by done. rewrite Huser.
  cbn [memory_table with_memory_table with_fs].
  rewrite (sql_select_bound_Some _ _ _ (sql_select_insert _ _)). cbn [user_id].
  rewrite bool_decide_eq_false_2 by (intros Hne; by apply Hne).
  cbn [fst snd memory_table with_memory_table with_fs]. split; [done|]. split.
  - pose proof (next_rowid_fresh (memory_table st)) as Hfresh. unfold sql_select in Hfresh.
    unfold sql_delete, sql_insert. cbn. by rewrite delete_insert_id.
  - apply next_rowid_after_insert_delete.
Qed.

(** X13. Two uploads (in two creations that succeed) whose names are the
    same after [secure_filename] go to the same path: the second overwrites
    the first, and the first memory, whose [photo_url] is that path, now
    shows the content of the second file. *)
Theorem same_name_upload_overwrites st req1 req2 file1 file2 :
  (add_memory req1 st).2 = Redirect ep_home →
  (add_memory req2 (add_memory req1 st).1).2 = Redirect ep_home →
  files req1 !! "photo" = Some file1 → valid_photo file1 →
  files req2 !! "photo" = Some file2 → valid_photo file2 →
  secure_filename (filename file1) = secure_filename (filename file2) →
  ∃ m1,
    sql_select (next_rowid (memory_table st))
               (memory_table (add_memory req2 (add_memory req1 st).1).1) = Some m1 ∧
    photo_url m1 = Some (upload_path file1) ∧
    fs_files (fs (add_memory req1 st).1) !! upload_path file1 = Some (stream file1) ∧
    fs_files (fs (add_memory req2 (add_memory req1 st).1).1) !! upload_path file1 =
      Some (stream file2).
Proof.
  intros Hrun1 Hrun2 Hfile1 Hvalid1 Hfile2 Hvalid2 Hsame.
  assert (upload_path file2 = upload_path file1) as Hpath
    by (unfold upload_path; by rewrite Hsame).
  apply add_memory_succeeded in Hrun2
    as (user2 & t2 & s2 & la2 & lo2 & d2 & disk2 & photo2 & Huser2 & Hupload2 & ->).
  revert Hupload2.
  apply add_memory_succeeded in Hrun1
    as (user1 & t1 & s1 & la1 & lo1 & d1 & disk1 & photo1 & Huser1 & Hupload1 & ->).
  cbn [fst fs with_memory_table with_fs memory_table]. intros Hupload2.
  apply (file_upload_logic_saved _ _ _ _ _ _ Hfile1 Hvalid1) in Hupload1 as [-> ->].
  apply (file_upload_logic_saved _ _ _ _ _ _ Hfile2 Hvalid2) in Hupload2 as [-> ->].
  cbn [file_save fs_files makedirs_upload_folder].
  eexists. split.
  { rewrite sql_select_insert_ne; [apply sql_select_insert|].
    unfold next_rowid at 2. cbn. unfold next_rowid. lia. }
  split; [done|]. rewrite Hpath. by rewrite !lookup_insert_eq.
Qed.

(** X14. When the owner updates a memory and sends a file that the upload
    rule accepts, and the update succeeds (the answer is the redirect to
    [home]), the file is written at its upload path and that path becomes
    the [photo_url]; the owner stays, and every other file on disk, the
    photo before among them if it has another path, stays as it was.  When
    the answer is another one ([file.save] raised, a field is missing), the
    memories are as before. *)
Theorem edit_memory_replaces_the_photo st req user k m file :
  current_user st = Some user →
  sql_select k (memory_table st) = Some m →
  user_id m = User.id user →
  files req !! "photo" = Some file →
  valid_photo file →
  ((edit_memory k req st).2 = Redirect ep_home →
     ∃ m',
       sql_select k (memory_table (edit_memory k req st).1) = Some m' ∧
       photo_url m' = Some (upload_path file) ∧
       user_id m' = user_id m ∧
       fs_files (fs (edit_memory k req st).1) !! upload_path file = Some (stream file) ∧
       (∀ p, p ≠ upload_path file →
             fs_files (fs (edit_memory k req st).1) !! p = fs_files (fs st) !! p)) ∧
  ((edit_memory k req st).2 ≠ Redirect ep_home →
     memory_table (edit_memory k req st).1 = memory_table st).
Proof.
  intros Huser Hm Hown Hfile Hvalid.
  unfold edit_memory, login_required. rewrite Huser, (sql_select_bound_Some _ _ _ Hm).
  rewrite bool_decide_eq_false_2 by (intros Hne; by apply Hne).
  destruct (method req); [by split|].
  destruct (memory_form req) as [[[[[title story] latitude] longitude] date]|]; [|by split].
  destruct (decide (save_succeeds (makedirs_upload_folder (fs st)) (upload_path file) file
                    = true)) as [Hsave|Hsave%not_true_is_false].
  - rewrite (file_upload_logic_valid _ _ _ _ Hfile Hvalid Hsave).
    cbn [fst snd memory_table fs with_memory_table with_fs file_save fs_files
         makedirs_upload_folder].
    split; [|done]. intros _. rewrite sql_select_update, Hm. cbn. eexists.
    split; [done|]. cbn. split; [done|]. split; [done|].
    split; [apply lookup_insert_eq|]. intros p Hp. by apply lookup_insert_ne.
  - destruct (file_upload_logic_failed req file (fs st) (photo_url m) Hfile Hvalid Hsave)
      as (d' & -> & _).
    by split.
Qed.

(** *** The two listings *)

#[local] Instance id_desc_total {R : Type} : Total (@id_desc R).
Proof. intros x y. unfold id_desc. lia. Qed.

#[local] Instance id_desc_trans {R : Type} : Transitive (@id_desc R).
Proof. intros x y z. unfold id_desc. lia. Qed.

Lemma StronglySorted_strict {R : Type} (l : list (Z * R)) :
  StronglySorted id_desc l → NoDup l.*1 →
  StronglySorted (λ x y : Z * R, y.1 < x.1) l.
Proof.
  induction 1 as [|x l Hl IH Hx]; cbn; [constructor|].
  intros [Hnotin Hnodup]%NoDup_cons. constructor; [by apply IH|].
  apply Forall_forall. intros y Hy.
  pose proof (proj1 (Forall_forall _ _) Hx y Hy) as Hle. unfold id_desc in Hle.
  assert (y.1 ≠ x.1); [|lia].
  intros Heq. apply Hnotin. rewrite <- Heq. apply list_elem_of_fmap. by exists y.
Qed.

Lemma StronglySorted_omap {A B : Type} (f : A → option B) (RA : relation A)
    (RB : relation B) (l : list A) :
  (∀ x y x' y', RA x y → f x = Some x' → f y = Some y' → RB x' y') →
  StronglySorted RA l → StronglySorted RB (omap f l).
Proof.
  intros Hf. induction 1 as [|x l Hl IH Hx]; cbn; [constructor|].
  destruct (f x) as [x'|] eqn:Hfx; [|done]. constructor; [done|].
  apply Forall_forall. intros y' (y & Hy & Hfy)%list_elem_of_omap.
  eapply Hf; [|done|done]. by apply (proj1 (Forall_forall _ _) Hx).
Qed.

Lemma merge_sort_map_to_list {R : Type} (rel : relation (Z * R)) `{!RelDecision rel}
    (m : gmap Z R) k r :
  (k, r) ∈ merge_sort rel (map_to_list m) ↔ m !! k = Some r.
Proof. by rewrite merge_sort_Permutation, elem_of_map_to_list. Qed.

(** X15. The listing of [appreciation] (a GET by a caller who is logged in)
    changes nothing and shows, newest first and each once, every note whose
    author is in the table [user], with its id, its text and the name of
    its author, for both users alike. *)
Theorem appreciation_lists_every_note st req user :
  current_user st = Some user →
  method req = GET →
  ∃ l,
    appreciation req st = (st, RenderTemplate (appreciation_html l)) ∧
    (∀ k body name,
       (k, body, name) ∈ l ↔
       ∃ a r, sql_select k (appreciation_table st) = Some a ∧ text a = body ∧
              user_table st !! author_id a = Some r ∧ username r = name) ∧
    StronglySorted (λ x y : Z * string * string, y.1.1 < x.1.1) l.
Proof.
  intros Huser Hget. exists (select_appreciations st). split.
  { unfold appreciation, login_required. by rewrite Huser, Hget. }
  unfold select_appreciations. split.
  - intros k body name. rewrite list_elem_of_omap. split.
    + intros ([k' a] & Hin & Hf). apply merge_sort_map_to_list in Hin.
      cbn in Hf. destruct (user_table st !! author_id a) as [r|] eqn:Hr; [|done].
      cbn in Hf. injection Hf as <- <- <-. by exists a, r.
    + intros (a & r & Ha & <- & Hr & <-). exists (k, a).
      split; [by apply merge_sort_map_to_list|]. cbn. by rewrite Hr.
  - eapply (StronglySorted_omap _ (λ x y : Z * appreciation_row, y.1 < x.1)).
    + intros [k1 a1] [k2 a2] x' y' Hlt Hx Hy. cbn in *.
      destruct (user_table st !! author_id a1); [|done].
      destruct (user_table st !! author_id a2); [|done].
      cbn in *. by simplify_eq.
    + apply StronglySorted_strict; [apply StronglySorted_merge_sort; apply _|].
      rewrite merge_sort_Permutation. apply NoDup_fst_map_to_list.
Qed.

(** X16. The index page (a GET by a caller who is logged in) changes nothing
    and shows every memory of the table once, those of the other user too,
    under the caller's name ([Guest] for an empty name); when SQLite's order
    of values is total, the memories are sorted by date, latest first. *)
Theorem home_lists_every_memory st req user :
  current_user st = Some user →
  method req = GET →
  ∃ name l,
    home req st = (st, index_html name l) ∧
    (User.username user ≠ "" → name = User.username user) ∧
    (User.username user = "" → name = "Guest") ∧
    (∀ k m, (k, m) ∈ l ↔ sql_select k (memory_table st) = Some m) ∧
    NoDup l.*1 ∧
    (Total sql_le → Sorted date_desc l).
Proof.
  intros Huser Hget. eexists _, (select_memories st). split.
  { unfold home. by rewrite Hget, Huser. }
  split; [|split].
  - intros Hname. by destruct (String.eqb_spec (User.username user) "").
  - intros ->. done.
  - unfold select_memories. split; [|split].
    + intros k m. apply merge_sort_map_to_list.
    + rewrite merge_sort_Permutation. apply NoDup_fst_map_to_list.
    + intros Htotal. apply Sorted_merge_sort.
      intros x y. unfold date_desc. apply Htotal.
Qed.

End Routing.

(** ** File names *)

(** X1. [allowed_file] looks at what follows the last dot only, whatever comes
    before it, and without regard to case. *)
Theorem allowed_file_reads_the_last_extension stem ext :
  Py.contains "." ext = false →
  allowed_file (stem +:+ "." +:+ ext) = bool_decide (Py.lower ext ∈ ALLOWED_EXTENSIONS).
Proof.
  intros Hext. unfold allowed_file.
  change (stem +:+ "." +:+ ext) with (stem +:+ String "." ext).
  by rewrite contains_app, (rsplit1_app _ _ _ Hext).
Qed.

Lemma lower_char_dot c : Ascii.eqb (Py.lower_char c) "." = Ascii.eqb c ".".
Proof. by destruct c as [[] [] [] [] [] [] [] []]. Qed.

Lemma lower_char_idemp c : Py.lower_char (Py.lower_char c) = Py.lower_char c.
Proof. by destruct c as [[] [] [] [] [] [] [] []]. Qed.

Lemma lower_idemp s : Py.lower (Py.lower s) = Py.lower s.
Proof. induction s as [|c s IH]; cbn; [done|]. by rewrite lower_char_idemp, IH. Qed.

Lemma contains_dot_lower s : Py.contains "." (Py.lower s) = Py.contains "." s.
Proof. induction s as [|c s IH]; cbn; [done|]. by rewrite lower_char_dot, IH. Qed.

Lemma rsplit1_dot_lower s : Py.rsplit1 "." (Py.lower s) = Py.lower <$> Py.rsplit1 "." s.
Proof.
  induction s as [|c s IH]; cbn; [done|]. rewrite IH, lower_char_dot.
  destruct (Py.rsplit1 "." s) as [|a [|b [|? ?]]]; cbn; try done;
    by destruct (Ascii.eqb c ".").
Qed.

(** X2. [allowed_file] does not depend on the case of the name. *)
Theorem allowed_file_ignores_case name :
  allowed_file (Py.lower name) = allowed_file name.
Proof.
  unfold allowed_file. rewrite contains_dot_lower, rsplit1_dot_lower, list_lookup_fmap.
  destruct (Py.rsplit1 "." name !! 1%nat) as [ext|]; cbn; [|done].
  by rewrite lower_idemp.
Qed.

(** ** The first start *)

Section Startup.
Context {sqlite_lib : Sqlite} {werkzeug_lib : Werkzeug} {os_lib : Os}
        {sqlite_order : SqliteOrder}.
Implicit Types (st : state).

Lemma init_db_empty getenv st :
  user_table st = ∅ →
  init_db getenv st =
    (your_pwd ← getenv "YOUR_PASSWORD";
     friend_pwd ← getenv "FRIEND_PASSWORD";
     Some (with_user_table
             (<[2 := UserRow "Friend" (generate_password_hash friend_pwd)]>
                (<[1 := UserRow "You" (generate_password_hash your_pwd)]> ∅)) st)).
Proof.
  intros Hempty. unfold init_db. rewrite Hempty, map_size_empty.
  by rewrite bool_decide_eq_true_2.
Qed.

Lemma init_db_seeded getenv st : user_table st ≠ ∅ → init_db getenv st = Some st.
Proof.
  intros Hne. unfold init_db. rewrite bool_decide_eq_false_2; [done|].
  by apply map_size_non_empty_iff.
Qed.

Lemma seeded_two_users (your_hash friend_hash : string) k :
  is_Some ((<[2 := UserRow "Friend" friend_hash]>
              (<[1 := UserRow "You" your_hash]> (∅ : gmap Z user_row))) !! k) →
  k = 1 ∨ k = 2.
Proof.
  destruct (decide (k = 2)) as [->|?]; [by right|].
  destruct (decide (k = 1)) as [->|?]; [by left|].
  rewrite !lookup_insert_ne, lookup_empty by done. by intros [? ?].
Qed.

(** X3. On an empty table [user], [init_db] fails exactly when one of the two
    passwords is not in the environment; with both it inserts the user 1,
    [You], and the user 2, [Friend], with the hashes of the passwords, no
    other user, and leaves the rest of the state. *)
Theorem init_db_seeds_the_two_users getenv st :
  user_table st = ∅ →
  (init_db getenv st = None ↔
   getenv "YOUR_PASSWORD" = None ∨ getenv "FRIEND_PASSWORD" = None) ∧
  (∀ your_pwd friend_pwd,
     getenv "YOUR_PASSWORD" = Some your_pwd →
     getenv "FRIEND_PASSWORD" = Some friend_pwd →
     ∃ st',
       init_db getenv st = Some st' ∧
       user_table st' !! 1 = Some (UserRow "You" (generate_password_hash your_pwd)) ∧
       user_table st' !! 2 = Some (UserRow "Friend" (generate_password_hash friend_pwd)) ∧
       two_users st' ∧
       load_user st' 1 = Some (User.mk 1 "You") ∧
       load_user st' 2 = Some (User.mk 2 "Friend") ∧
       memory_table st' = memory_table st ∧
       appreciation_table st' = appreciation_table st ∧
       fs st' = fs st ∧
       session st' = session st).
Proof.
  intros Hempty. rewrite (init_db_empty _ _ Hempty). split.
  - destruct (getenv "YOUR_PASSWORD"), (getenv "FRIEND_PASSWORD"); cbn;
      (split; [intros Hnone|intros Hnone]); try done; auto; by destruct Hnone.
  - intros your_pwd friend_pwd -> ->. cbn. eexists. split; [done|].
    unfold two_users, load_user. cbn. repeat split; try done.
    apply seeded_two_users.
Qed.

(** X4. A start never seeds twice: in the state that a start leaves, a
    second start changes nothing, whatever passwords the environment then
    holds, also when it holds none. *)
Theorem init_db_never_reseeds getenv getenv' st st1 :
  init_db getenv st = Some st1 →
  init_db getenv' st1 = Some st1.
Proof.
  intros Hinit. apply init_db_seeded.
  destruct (decide (user_table st = ∅)) as [Hempty|Hne].
  - rewrite (init_db_empty _ _ Hempty) in Hinit.
    destruct (getenv "YOUR_PASSWORD"); [|done].
    destruct (getenv "FRIEND_PASSWORD"); [|done].
    cbn in Hinit. injection Hinit as <-. cbn. apply insert_non_empty.
  - rewrite (init_db_seeded _ _ Hne) in Hinit. by injection Hinit as <-.
Qed.

(** X23. From the first start on, after any sequence of requests: the users are
    1 and 2, every note is from one of them to the other, every memory and
    every note belongs to one of them, every [photo_url] names a file on
    disk, and no row has an id above the counter of its table. *)
Theorem from_the_first_start_on getenv st0 l :
  init_db getenv no_database = Some st0 →
  two_users (serve l st0) ∧
  notes_to_other (serve l st0) ∧
  owners_exist (serve l st0) ∧
  photos_on_disk (serve l st0) ∧
  ids_below_sequence (memory_table (serve l st0)) ∧
  ids_below_sequence (appreciation_table (serve l st0)).
Proof.
  intros Hinit. rewrite (init_db_empty getenv no_database eq_refl) in Hinit.
  destruct (getenv "YOUR_PASSWORD") as [your_pwd|]; [|done].
  destruct (getenv "FRIEND_PASSWORD") as [friend_pwd|]; [|done].
  cbn in Hinit. injection Hinit as <-.
  apply (serve_invariant (λ s,
    two_users s ∧ notes_to_other s ∧ owners_exist s ∧ photos_on_disk s ∧
    ids_below_sequence (memory_table s) ∧ ids_below_sequence (appreciation_table s)));
    [done| |].
  - intros s s' Heff (Hu & Hn & Ho & Hp & Hm & Ha).
    split; [unfold two_users; by rewrite (effect_user_table _ _ Heff)|].
    split; [by eapply effect_notes_to_other|].
    split; [by eapply effect_owners_exist|].
    split; [by eapply effect_photos_on_disk|].
    split; [by apply (effect_sequence_memory _ _ Heff)|by apply (effect_sequence_notes _ _ Heff)].
  - unfold two_users, notes_to_other, owners_exist, photos_on_disk, ids_below_sequence,
      sql_select. cbn.
    split; [apply seeded_two_users|].
    repeat split; intros *; rewrite lookup_empty; (done || by intros [? ?]).
Qed.

End Startup.

(** ** The routes on concrete requests *)

Section MoreRuns.
#[local] Existing Instance Run.sqlite.
#[local] Existing Instance Run.werkzeug.
#[local] Existing Instance Run.os.
#[local] Existing Instance RunOrder.order.

(** Close a goal that evaluation decides. *)
Ltac run :=
  first [ reflexivity | discriminate | exact I | by eexists
        | vm_compute; first [reflexivity | discriminate | exact I] ].

(** Go through the rows of a concrete table. *)
Ltac each_row Hk :=
  apply elem_of_map_to_list in Hk; vm_compute in Hk;
  repeat (apply elem_of_cons in Hk as [Hk|Hk]; [injection Hk as -> ->|]);
  [..|by apply elem_of_nil in Hk].

Lemma order_is_total : Total (sql_le (SqliteOrder := RunOrder.order)).
Proof.
  intros x y. cbn. unfold RunOrder.value_leb.
  destruct x as [n|p|a], y as [m|q|b]; cbn; auto;
    try (destruct (String.leb_total a b); by auto);
    match goal with
    | |- Qle_bool ?p ?q = true ∨ _ =>
        destruct (Qlt_le_dec p q) as [Hlt%Qlt_le_weak|Hle];
        [left|right]; by apply Qle_bool_iff
    end.
Qed.

Lemma started_is_sound :
  two_users Run.started ∧ notes_to_other Run.started ∧ owners_exist Run.started ∧
  photos_on_disk Run.started ∧
  ids_below_sequence (memory_table Run.started) ∧
  ids_below_sequence (appreciation_table Run.started).
Proof.
  split.
  { intros k [r Hk]. each_row Hk; auto. }
  unfold notes_to_other, owners_exist, photos_on_disk, ids_below_sequence, sql_select.
  change (rows (memory_table Run.started)) with (∅ : gmap Z memory_row).
  change (rows (appreciation_table Run.started)) with (∅ : gmap Z appreciation_row).
  repeat split; intros *; rewrite lookup_empty; (done || by intros [? ?]).
Qed.

Lemma you_pinned_ids :
  ids_below_sequence (memory_table Run.you_pinned) ∧
  ids_below_sequence (appreciation_table Run.you_pinned).
Proof.
  destruct started_is_sound as (_ & _ & _ & _ & Hmemory & Hnotes).
  pose proof (dispatch_effect url_login
                (Run.post [("username", "You"); ("password", "alpha")] []) Run.started)
    as Hlogin.
  pose proof (dispatch_effect url_add_memory (Run.post Run.trip [("photo", Run.cat)]) Run.you)
    as Hpin.
  split.
  - apply (effect_sequence_memory _ _ Hpin), (effect_sequence_memory _ _ Hlogin), Hmemory.
  - apply (effect_sequence_notes _ _ Hpin), (effect_sequence_notes _ _ Hlogin), Hnotes.
Qed.

(** Memory 1 is deleted during the day; the walk that is pinned after it
    gets the id 2, and the next id is 3. *)
Lemma ids_are_never_reused_witness :
  1 < next_rowid (memory_table (serve RunOrder.a_day Run.you_pinned)) ∧
  sql_select 1 (memory_table (serve RunOrder.a_day Run.you_pinned)) = None.
Proof.
  destruct (ids_are_never_reused RunOrder.a_day Run.you_pinned
              (proj1 you_pinned_ids) (proj2 you_pinned_ids)) as (_ & Hmemory & _).
  split; [apply Hmemory|]; run.
Defined.

(** After the day every note is from one user to the other. *)
Lemma notes_stay_between_the_two_witness :
  notes_to_other (serve RunOrder.a_day Run.started) ∧
  sql_select 2 (appreciation_table (serve RunOrder.a_day Run.started)) =
    Some (AppreciationRow "welcome" 2 1).
Proof.
  split; [|run].
  apply (notes_stay_between_the_two RunOrder.a_day Run.started);
    [apply started_is_sound|apply started_is_sound].
Defined.

(** The photo of the memory that was deleted during the day is still on
    disk. *)
Lemma photos_stay_on_disk_witness :
  is_Some (fs_files (fs (serve RunOrder.a_day Run.you_pinned)) !! "static/uploads/cat.PNG") ∧
  sql_select 1 (memory_table (serve RunOrder.a_day Run.you_pinned)) = None ∧
  photos_on_disk (serve RunOrder.a_day Run.started).
Proof.
  destruct (photos_stay_on_disk RunOrder.a_day Run.you_pinned) as [Hkept _].
  destruct (photos_stay_on_disk RunOrder.a_day Run.started) as [_ Hphotos].
  split; [apply Hkept; run|]. split; [run|]. apply Hphotos, started_is_sound.
Defined.

Lemma owners_stay_users_witness : owners_exist (serve RunOrder.a_day Run.started).
Proof. apply (owners_stay_users RunOrder.a_day Run.started), started_is_sound. Defined.

(** What user 2 sends leaves the memory and the note of user 1. *)
Lemma rows_of_others_are_safe_witness :
  sql_select 1 (memory_table (serve RunOrder.friends_part Run.you_wrote)) =
    Some (Run.trip_row None) ∧
  sql_select 1 (appreciation_table (serve RunOrder.friends_part Run.you_wrote)) =
    Some (AppreciationRow "thanks" 1 2).
Proof.
  destruct (rows_of_others_are_safe RunOrder.friends_part Run.you_wrote 1) as [Hmemory Hnote].
  - intros c u req Hin. unfold RunOrder.friends_part, RunOrder.to in Hin.
    repeat (apply elem_of_cons in Hin as [Hin|Hin]; [by injection Hin as -> _ _|]).
    by apply elem_of_nil in Hin.
  - split; [apply Hmemory|apply Hnote]; run.
Defined.

(** [You] logs in with the password of the first start. *)
Lemma login_opens_the_session_witness :
  login (Run.post [("username", "You"); ("password", "alpha")] []) Run.started =
    (with_session (Some 1) Run.started, Redirect ep_home) ∧
  current_user Run.you = Some (User.mk 1 "You").
Proof.
  destruct (login_opens_the_session Run.started
              (Run.post [("username", "You"); ("password", "alpha")] []) "You" "alpha"
              ltac:(run) ltac:(run) ltac:(run) ltac:(run))
    as (k & r & Hk & Hname & Hlogin & Huser).
  - exists 1, (UserRow "You" "plain$alpha"). split; run.
  - intros k r Hk Hname. destruct (seeded_users k r Hk) as [-> | ->]; [run|].
    vm_compute in Hname. discriminate.
  - each_row Hk; [vm_compute in Hname; discriminate|].
    split; [|run]. rewrite Hlogin. run.
Defined.


(** User 1 logs out; the index page then sends to the login page. *)
Lemma logout_closes_the_session_witness :
  dispatch url_logout Run.get Run.you_wrote =
    (with_session None Run.you_wrote, Plain (Redirect ep_login)) ∧
  (dispatch url_home Run.get (with_session None Run.you_wrote)).1 =
    with_session None Run.you_wrote.
Proof.
  destruct (logout_closes_the_session Run.you_wrote Run.get (User.mk 1 "You")
              ltac:(run) ltac:(run)) as (Hlogout & _ & Hafter).
  split; [exact Hlogout|]. by apply Hafter.
Defined.

Lemma get_changes_nothing_witness :
  (dispatch (url_edit_memory 1) Run.get Run.you_pinned).1 = Run.you_pinned ∧
  (dispatch (url_delete_memory 1) Run.get Run.you_pinned).1 = Run.you_pinned.
Proof.
  split; by apply get_changes_nothing.
Defined.

(** The walk is pinned after the trip: the trip is as before. *)
Lemma add_memory_adds_one_row_witness :
  sql_select 1 (memory_table (add_memory (Run.post Run.walk []) Run.you_pinned).1) =
    Some (Run.trip_row (Some "static/uploads/cat.PNG")) ∧
  sqlite_sequence (memory_table (add_memory (Run.post Run.walk []) Run.you_pinned).1) = 2.
Proof.
  destruct (add_memory_adds_one_row (sqlite_lib := Run.sqlite)
              (werkzeug_lib := Run.werkzeug) (os_lib := Run.os)
              Run.you_pinned (Run.post Run.walk []) ltac:(run))
    as (_ & _ & Hrows & Hsequence & _).
  split; [rewrite Hrows|rewrite Hsequence]; run.
Defined.

(** User 1 deletes the trip; its photo stays on disk. *)
Lemma delete_memory_removes_one_row_witness :
  sql_select 1 (memory_table (delete_memory 1 (Run.post [] []) Run.you_pinned).1) = None ∧
  fs_files (fs (delete_memory 1 (Run.post [] []) Run.you_pinned).1)
    !! "static/uploads/cat.PNG" = Some "PNG89".
Proof.
  destruct (delete_memory_removes_one_row (sqlite_lib := Run.sqlite) Run.you_pinned
              (Run.post [] []) (User.mk 1 "You") 1
              (Run.trip_row (Some "static/uploads/cat.PNG"))
              ltac:(run) ltac:(run) ltac:(run) ltac:(run))
    as (_ & Hgone & _ & _ & Hfs & _).
  split; [exact Hgone|]. rewrite Hfs. run.
Defined.

(** The walk is pinned and deleted: the trip alone is left, and the next
    memory gets the id 3. *)
Lemma create_then_delete_memory_witness :
  next_rowid (memory_table
                (delete_memory 2 (Run.post [] [])
                   (add_memory (Run.post Run.walk []) Run.you_pinned).1).1) = 3.
Proof.
  destruct (create_then_delete_memory (sqlite_lib := Run.sqlite)
              (werkzeug_lib := Run.werkzeug) (os_lib := Run.os)
              Run.you_pinned (Run.post Run.walk []) (Run.post [] [])
              ltac:(run) ltac:(run)) as (_ & _ & Hnext).
  exact Hnext.
Defined.

Lemma other_cat_is_valid : valid_photo RunOrder.other_cat.
Proof. apply upload_guard_spec. run. Defined.

Lemma dog_is_valid : valid_photo RunOrder.dog.
Proof. apply upload_guard_spec. run. Defined.

(** [../cat.PNG] is stored as [cat.PNG] and replaces the photo of the
    trip. *)
Lemma same_name_upload_overwrites_witness :
  ∃ m1,
    sql_select 1
      (memory_table
         (add_memory (Run.post Run.walk [("photo", RunOrder.other_cat)])
            (add_memory (Run.post Run.trip [("photo", Run.cat)]) Run.you).1).1) = Some m1 ∧
    photo_url m1 = Some "static/uploads/cat.PNG" ∧
    fs_files
      (fs (add_memory (Run.post Run.walk [("photo", RunOrder.other_cat)])
             (add_memory (Run.post Run.trip [("photo", Run.cat)]) Run.you).1).1)
      !! "static/uploads/cat.PNG" = Some "PNG90".
Proof.
  destruct (same_name_upload_overwrites (sqlite_lib := Run.sqlite)
              (werkzeug_lib := Run.werkzeug) (os_lib := Run.os) Run.you
              (Run.post Run.trip [("photo", Run.cat)])
              (Run.post Run.walk [("photo", RunOrder.other_cat)])
              Run.cat RunOrder.other_cat
              ltac:(run) ltac:(run) ltac:(run) cat_is_valid ltac:(run) other_cat_is_valid
              ltac:(run))
    as (m1 & Hm1 & Hurl & _ & Hfile).
  exists m1. split; [exact Hm1|]. split; [exact Hurl|exact Hfile].
Defined.

(** User 1 replaces the photo of the trip by [dog.gif]; [cat.PNG] stays on
    disk. *)
Lemma edit_memory_replaces_the_photo_witness :
  ∃ m',
    sql_select 1
      (memory_table (edit_memory 1 (Run.post Run.trip [("photo", RunOrder.dog)]) Run.you_pinned).1)
      = Some m' ∧
    photo_url m' = Some "static/uploads/dog.gif" ∧
    fs_files (fs (edit_memory 1 (Run.post Run.trip [("photo", RunOrder.dog)]) Run.you_pinned).1)
      !! "static/uploads/cat.PNG" = Some "PNG89".
Proof.
  destruct (edit_memory_replaces_the_photo (sqlite_lib := Run.sqlite)
              (werkzeug_lib := Run.werkzeug) (os_lib := Run.os) Run.you_pinned
              (Run.post Run.trip [("photo", RunOrder.dog)]) (User.mk 1 "You") 1
              (Run.trip_row (Some "static/uploads/cat.PNG")) RunOrder.dog
              ltac:(run) ltac:(run) ltac:(run) ltac:(run) dog_is_valid)
    as [Hdone _].
  destruct (Hdone ltac:(run)) as (m' & Hm' & Hurl & _ & _ & Hkept).
  exists m'. split; [exact Hm'|]. split; [exact Hurl|].
  rewrite Hkept; run.
Defined.

(** User 2 sees the note of user 1 under the name of its author. *)
Lemma appreciation_lists_every_note_witness :
  ∃ l,
    appreciation Run.get Run.friend_reads = (Run.friend_reads, RenderTemplate (appreciation_html l)) ∧
    (1, "thanks", "You") ∈ l.
Proof.
  destruct (appreciation_lists_every_note Run.friend_reads Run.get (User.mk 2 "Friend")
              ltac:(run) ltac:(run)) as (l & Hpage & Hin & _).
  exists l. split; [exact Hpage|]. apply Hin.
  exists (AppreciationRow "thanks" 1 2), (UserRow "You" "plain$alpha"). repeat split; run.
Defined.

(** User 2 sees the trip of user 1 on the index page. *)
Lemma home_lists_every_memory_witness :
  ∃ name l,
    home Run.get Run.friend_reads = (Run.friend_reads, index_html name l) ∧
    name = "Friend" ∧
    (1, Run.trip_row None) ∈ l ∧
    Sorted date_desc l.
Proof.
  destruct (home_lists_every_memory Run.friend_reads Run.get (User.mk 2 "Friend")
              ltac:(run) ltac:(run)) as (name & l & Hpage & Hname & _ & Hin & _ & Hsorted).
  exists name, l. split; [exact Hpage|]. split; [by apply Hname|].
  split; [apply Hin; run|]. apply Hsorted, order_is_total.
Defined.

Lemma allowed_file_reads_the_last_extension_witness :
  allowed_file "holiday.png.exe" = false ∧ allowed_file "holiday.exe.PNG" = true.
Proof.
  split.
  - etrans; [exact (allowed_file_reads_the_last_extension "holiday.png" "exe" eq_refl)|run].
  - etrans; [exact (allowed_file_reads_the_last_extension "holiday.exe" "PNG" eq_refl)|run].
Defined.

(** The first start with the two passwords, and a start without them. *)
Lemma init_db_seeds_the_two_users_witness :
  init_db (λ _, None) no_database = None ∧
  ∃ st',
    init_db Run.getenv no_database = Some st' ∧
    load_user st' 1 = Some (User.mk 1 "You") ∧
    load_user st' 2 = Some (User.mk 2 "Friend").
Proof.
  destruct (init_db_seeds_the_two_users (λ _, None) no_database eq_refl) as [Hfails _].
  destruct (init_db_seeds_the_two_users Run.getenv no_database eq_refl) as [_ Hseeds].
  split; [apply Hfails; by left|].
  destruct (Hseeds "alpha" "beta" eq_refl eq_refl)
    as (st' & Hinit & _ & _ & _ & Hyou & Hfriend & _).
  exists st'. split; [exact Hinit|]. split; [exact Hyou|exact Hfriend].
Defined.

(** A second start with other passwords, or with none, keeps the users of
    the first. *)
Lemma init_db_never_reseeds_witness :
  init_db (λ _, Some "gamma") Run.started = Some Run.started ∧
  init_db (λ _, None) Run.started = Some Run.started.
Proof.
  split; apply (init_db_never_reseeds Run.getenv _ no_database); run.
Defined.

Lemma from_the_first_start_on_witness :
  notes_to_other (serve RunOrder.a_day Run.started) ∧
  photos_on_disk (serve RunOrder.a_day Run.started).
Proof.
  destruct (from_the_first_start_on (werkzeug_lib := Run.werkzeug) (sqlite_order := RunOrder.order)
              Run.getenv Run.started RunOrder.a_day ltac:(run))
    as (_ & Hnotes & _ & Hphotos & _).
  split; [exact Hnotes|exact Hphotos].
Defined.

End MoreRuns.
